(** * Real-estate chatbot front-end: a shallow embedding of the React client

    The client is four components and a page controller:
    - [PriceChart.js]  pivots chart records into rows for the line chart;
    - [DataTable.js]   projects a fixed whitelist of columns;
    - [SummaryBox.js]  shows the summary text and the metadata badges;
    - [ChatInput.js]   trims and submits the query;
    - [App.js]         owns [data], [loading], [error] and issues the request.

    The first part of the file embeds the code, the second states and
    proves its properties.

    Modelling conventions.
    - JavaScript values are the inductive type [JS.value].  Numbers are
      the integers: the years and prices the back end sends are safe
      integers (magnitude below 2^53), which JavaScript prints in plain
      decimal notation and subtracts exactly.
    - A plain object is the list of its own properties in the order the
      engine enumerates them (array-index names first, ascending, then
      the other names in creation order).  Of [Object.prototype] only the
      accessor [__proto__] matters to the code and is modelled.
    - A function that can leave the modelled fragment returns [option].
    - A component's output is an element tree; inline styles and layout
      props are left out.
    - An [async] handler is split at its [await]: the part that runs at
      once and the continuation that runs when the request settles.  Each
      runs to completion, so the states between them are the only ones
      another handler can observe. *)

From Stdlib Require Import ZArith NArith List String Ascii Bool Lia.
From Stdlib Require Import Sorted Permutation.
From Stdlib Require Import DecimalString DecimalZ DecimalN.
Import ListNotations.

Local Open Scope string_scope.
Local Open Scope list_scope.

Set Warnings "-register-all".

(** * The program *)

(** ** JavaScript values and ordinary objects *)

Module JS.

Inductive value : Type :=
| VUndefined
| VNull
| VBool (b : bool)
| VNum (n : Z)
| VStr (s : string)
| VArr (elems : list value)
| VObj (fields : list (string * value)).

(** Own properties of an ordinary object, in enumeration order. *)
Definition props (A : Type) : Type := list (string * A).

Definition obj : Type := props value.

(** [ToBoolean]. *)
Definition truthy (v : value) : bool :=
  match v with
  | VUndefined | VNull => false
  | VBool b => b
  | VNum n => negb (n =? 0)%Z
  | VStr s => negb (s =? "")
  | VArr _ | VObj _ => true
  end.

(** [v === undefined || v === null], the test behind [??]. *)
Definition nullish (v : value) : bool :=
  match v with
  | VUndefined | VNull => true
  | _ => false
  end.

(** [typeof v === 'number']. *)
Definition is_number (v : value) : bool :=
  match v with
  | VNum _ => true
  | _ => false
  end.

(** [Number::toString] on an integer: plain decimal digits, a leading
    minus sign for negative numbers.  This is what JavaScript prints for
    the safe integers (magnitude below 2^53); larger numbers, which it
    rounds and from 10^21 on prints with an exponent, are outside the
    model, and no statement about a displayed text relies on them. *)
Definition number_to_string (n : Z) : string :=
  NilZero.string_of_int (Z.to_int n).

(** [Array.prototype.join] on strings. *)
Fixpoint join (sep : string) (l : list string) : string :=
  match l with
  | [] => ""
  | [s] => s
  | s :: t => s ++ sep ++ join sep t
  end.

(** [ToString]; an array joins its elements with a comma, [null] and
    [undefined] elements printing as the empty string.  An object prints
    through the inherited [Object.prototype.toString]; a parsed object
    that owns a field called [toString] makes JavaScript throw instead,
    and the statements about displayed texts exclude it. *)
Fixpoint ToString (v : value) : string :=
  match v with
  | VUndefined => "undefined"
  | VNull => "null"
  | VBool true => "true"
  | VBool false => "false"
  | VNum n => number_to_string n
  | VStr s => s
  | VArr l => join "," (map (fun e => if nullish e then "" else ToString e) l)
  | VObj _ => "[object Object]"
  end.

(** Own-property lookup. *)
Fixpoint own_get {A : Type} (o : props A) (k : string) : option A :=
  match o with
  | [] => None
  | (k', v) :: t => if k' =? k then Some v else own_get t k
  end.

Definition has_own {A : Type} (o : props A) (k : string) : bool :=
  match own_get o k with
  | Some _ => true
  | None => false
  end.

(** [o[k]] or [o.k] on a record, for a name that [Object.prototype] does
    not define: the own property, or [undefined]. *)
Definition get (o : obj) (k : string) : value :=
  match own_get o k with
  | Some v => v
  | None => VUndefined
  end.

(** A property name is an array index when it is the canonical decimal
    form of an integer below 2^32 - 1; such names are enumerated first, in
    ascending numeric order. *)
Definition array_index (k : string) : option N :=
  match NilZero.uint_of_string k with
  | Some u =>
      let n := N.of_uint u in
      if (NilZero.string_of_uint (N.to_uint n) =? k) && (n <? 4294967295)%N
      then Some n
      else None
  | None => None
  end.

(** Replace the value of an existing own property, keeping its place. *)
Fixpoint update {A : Type} (o : props A) (k : string) (v : A) : props A :=
  match o with
  | [] => []
  | (k', v') :: t =>
      if k' =? k then (k', v) :: t else (k', v') :: update t k v
  end.

(** Create an array-index property: after the smaller indices, before
    everything else. *)
Fixpoint insert_index {A : Type} (i : N) (k : string) (v : A) (o : props A)
  : props A :=
  match o with
  | [] => [(k, v)]
  | (k', v') :: t =>
      match array_index k' with
      | Some j =>
          if (j <? i)%N then (k', v') :: insert_index i k v t
          else (k, v) :: o
      | None => (k, v) :: o
      end
  end.

(** [CreateDataProperty] / [Set] on an own data property. *)
Definition set_prop {A : Type} (o : props A) (k : string) (v : A) : props A :=
  if has_own o k then update o k v
  else
    match array_index k with
    | Some i => insert_index i k v o
    | None => o ++ [(k, v)]
    end.

(** The assignment [o[k] = v] on an ordinary object.  The name
    ["__proto__"] is an accessor inherited from [Object.prototype]:
    assigning to it never creates an own property. *)
Definition assign {A : Type} (o : props A) (k : string) (v : A) : props A :=
  if k =? "__proto__" then o else set_prop o k v.

(** [Object.values]. *)
Definition values {A : Type} (o : props A) : list A := map snd o.

Definition keys {A : Type} (o : props A) : list string := map fst o.

(** [Array.prototype.sort] with a comparator that may leave the modelled
    fragment ([None]).  The sort is stable; for a consistent comparator
    every stable sort returns the same array, here computed by insertion
    from the right. *)
Fixpoint insert_sorted {A : Type} (cmp : A -> A -> option Z) (x : A)
  (l : list A) : option (list A) :=
  match l with
  | [] => Some [x]
  | y :: t =>
      match cmp x y with
      | None => None
      | Some c =>
          if (c <=? 0)%Z then Some (x :: y :: t)
          else
            match insert_sorted cmp x t with
            | Some t' => Some (y :: t')
            | None => None
            end
      end
  end.

Fixpoint sort_by {A : Type} (cmp : A -> A -> option Z) (l : list A)
  : option (list A) :=
  match l with
  | [] => Some []
  | x :: t =>
      match sort_by cmp t with
      | Some t' => insert_sorted cmp x t'
      | None => None
      end
  end.

(** The order a comparator [a - b] on a numeric key sorts by. *)
Definition le_key {A : Type} (f : A -> Z) (a b : A) : Prop := (f a <= f b)%Z.

End JS.

(** ** PriceChart.js *)

Module PriceChart.
Import JS.

(** [data.some(d => d.area)]. *)
Definition isComparison (data : list obj) : bool :=
  existsb (fun d => truthy (get d "area")) data.

(** The property name under which a record's year is filed in [yearMap].
    Only numeric years are modelled. *)
Definition year_key (year : value) : option string :=
  match year with
  | VNum n => Some (number_to_string n)
  | _ => None
  end.

(** The body of [data.forEach(d => ...)] in comparison mode.  A row is an
    object, hence truthy: [!yearMap[year]] holds exactly when [yearMap]
    has no property of that name yet. *)
Definition group_step (yearMap : props obj) (d : obj) : option (props obj) :=
  let year := get d "year" in
  match year_key year with
  | None => None
  | Some key =>
      let yearMap1 :=
        if has_own yearMap key then yearMap
        else assign yearMap key [("year", year)] in
      match own_get yearMap1 key with
      | Some row =>
          Some (assign yearMap1 key
                  (assign row (ToString (get d "area"))
                     (get d "__price_computed__")))
      | None => None
      end
  end.

Fixpoint group_by_year (yearMap : props obj) (data : list obj)
  : option (props obj) :=
  match data with
  | [] => Some yearMap
  | d :: rest =>
      match group_step yearMap d with
      | Some yearMap' => group_by_year yearMap' rest
      | None => None
      end
  end.

(** The comparator [(a, b) => a.year - b.year], on numbers. *)
Definition year_diff (a b : obj) : option Z :=
  match get a "year", get b "year" with
  | VNum x, VNum y => Some (x - y)%Z
  | _, _ => None
  end.

(** [chartData] of the comparison branch. *)
Definition comparison_chartData (data : list obj) : option (list obj) :=
  match group_by_year [] data with
  | Some yearMap => sort_by year_diff (values yearMap)
  | None => None
  end.

(** The fallback of the single-series branch:
    [Object.values(d).find(v => typeof v === 'number' && v !== d.year)]. *)
Definition fallback_price (d : obj) : value :=
  let year := get d "year" in
  match
    find (fun v =>
            match v with
            | VNum n =>
                negb (match year with VNum y => (n =? y)%Z | _ => false end)
            | _ => false
            end) (values d)
  with
  | Some v => v
  | None => VUndefined
  end.

(** [{ year: d.year, price: ... }]. *)
Definition single_point (d : obj) : obj :=
  let p := get d "__price_computed__" in
  [("year", get d "year");
   ("price", if negb (nullish p) then p else fallback_price d)].

(** [chartData] of the single-series branch. *)
Definition single_chartData (data : list obj) : list obj :=
  map single_point data.

(** What the component hands to the line chart. *)
Inductive chart : Type :=
| NoChart
| Comparison (chartData : list obj)
| SingleSeries (chartData : list obj).

(** The component, up to the data it charts; [None] when a year is not a
    number.  (The colour of a series does not depend on [chartData] and is
    not modelled.) *)
Definition PriceChart (data : list obj) : option chart :=
  match data with
  | [] => Some NoChart
  | _ =>
      if isComparison data then
        match comparison_chartData data with
        | Some rows => Some (Comparison rows)
        | None => None
        end
      else Some (SingleSeries (single_chartData data))
  end.

(** A comparison record as the back end sends it. *)
Definition rec (year : Z) (area : string) (price : Z) : obj :=
  [("year", VNum year); ("area", VStr area); ("__price_computed__", VNum price)].

Definition spec_input : list obj :=
  [rec 2021 "Wakad" 5000; rec 2021 "Akurdi" 4800; rec 2022 "Wakad" 5200].

Definition spec_output : list obj :=
  [[("year", VNum 2021); ("Wakad", VNum 5000); ("Akurdi", VNum 4800)];
   [("year", VNum 2022); ("Wakad", VNum 5200)]].

(** *** Specification vocabulary *)

(** The property name a record's area is stored under: [d.area] coerced
    to a property key. *)
Definition area_key (d : obj) : string := ToString (get d "area").

Definition row_year (r : obj) : Z :=
  match get r "year" with
  | VNum y => y
  | _ => 0%Z
  end.

(** [d] is a record of year [y] filed under the area name [k]. *)
Definition contributes (y : Z) (k : string) (d : obj) : bool :=
  match get d "year" with
  | VNum y' => (y' =? y)%Z
  | _ => false
  end && (area_key d =? k).

(** The value of the last record of year [y] and area name [k], if any. *)
Definition last_price (data : list obj) (y : Z) (k : string) : option value :=
  option_map (fun d => get d "__price_computed__")
    (find (contributes y k) (rev data)).

Definition numeric_year (d : obj) : Prop := exists y, get d "year" = VNum y.

(** The spec's reading of the single-series fallback: the first numeric
    field whose name is not [year]. *)
Definition first_numeric_non_year (d : obj) : value :=
  match
    find (fun kv => negb (fst kv =? "year") && is_number (snd kv)) d
  with
  | Some kv => snd kv
  | None => VUndefined
  end.

(** What the loop maintains: a row per year seen so far, filed under the
    year's decimal name, carrying the year and the latest value of every
    area met in that year. *)
Definition Inv (pre : list obj) (yearMap : props obj) : Prop :=
  NoDup (keys yearMap) /\
  (forall key row, own_get yearMap key = Some row ->
     exists y, key = number_to_string y /\ get row "year" = VNum y /\
       (exists d, In d pre /\ get d "year" = VNum y) /\
       forall k, k <> "year" -> k <> "__proto__" ->
                 own_get row k = last_price pre y k) /\
  (forall d y, In d pre -> get d "year" = VNum y ->
               has_own yearMap (number_to_string y) = true).

(** *** The series of the comparison chart *)

(** [SameValueZero], the equality a [Set] uses.  The areas come from
    different records of a parsed response, so two arrays or objects among
    them are never the same reference. *)
Definition same_value_zero (a b : value) : bool :=
  match a, b with
  | VUndefined, VUndefined | VNull, VNull => true
  | VBool x, VBool y => Bool.eqb x y
  | VNum x, VNum y => (x =? y)%Z
  | VStr x, VStr y => x =? y
  | _, _ => false
  end.

(** [new Set(l)] continued from the elements [set], in insertion order. *)
Fixpoint set_add_all (set l : list value) : list value :=
  match l with
  | [] => set
  | v :: t =>
      set_add_all (if existsb (same_value_zero v) set then set else set ++ [v]) t
  end.

(** [[...new Set(data.map(d => d.area))]]. *)
Definition areas (data : list obj) : list value :=
  set_add_all [] (map (fun d => get d "area") data).

Definition colors : list string :=
  ["#ffc658"; "#82ca9d"; "#8884d8"; "#ff7c7c"].

(** A [<Line dataKey={area} stroke={...} />]. *)
Record line : Type := {
  dataKey : value;
  stroke : string
}.

(** [areas.map((area, i) => <Line ... stroke={colors[i % colors.length]} />)],
    from index [i] on. *)
Fixpoint lines_from (i : nat) (l : list value) : list line :=
  match l with
  | [] => []
  | area :: t =>
      {| dataKey := area;
         stroke := nth (i mod List.length colors) colors "" |}
      :: lines_from (S i) t
  end.

Definition lines (data : list obj) : list line := lines_from 0 (areas data).

(** A value that is not an array or an object. *)
Definition primitive (v : value) : bool :=
  match v with
  | VArr _ | VObj _ => false
  | _ => true
  end.

(** The pair a comparison record is filed under: its year and the name of
    its area. *)
Definition cell_of (d : obj) : value * string := (get d "year", area_key d).

End PriceChart.

(** ** ChatInput.js *)

Module ChatInput.

(** The field's text: a JavaScript string, as its UTF-16 code units. *)
Definition jsstring : Type := list N.

(** Code units of a string literal written in ASCII. *)
Fixpoint lit (s : string) : jsstring :=
  match s with
  | EmptyString => []
  | String c t => N_of_ascii c :: lit t
  end.

(** ECMAScript [WhiteSpace] and [LineTerminator] code points, the ones
    [String.prototype.trim] strips. *)
Definition is_white_space (c : N) : bool :=
  existsb (N.eqb c)
    [9; 10; 11; 12; 13; 32; 160; 5760; 8232; 8233; 8239; 8287; 12288; 65279]%N
  || ((8192 <=? c)%N && (c <=? 8202)%N).

Fixpoint trimStart (s : jsstring) : jsstring :=
  match s with
  | [] => []
  | c :: t => if is_white_space c then trimStart t else s
  end.

Definition trimEnd (s : jsstring) : jsstring := rev (trimStart (rev s)).

Definition trim (s : jsstring) : jsstring := trimEnd (trimStart s).

(** [!q] on a string. *)
Definition is_empty (s : jsstring) : bool :=
  match s with
  | [] => true
  | _ => false
  end.

Section Component.
(** The parent's world, on which the [onQuery] callback acts. *)
Context {W : Type}.

(** [submit]: the new field value and the parent's world afterwards. *)
Definition submit (onQuery : option (jsstring -> W -> W)) (value : jsstring)
  (w : W) : jsstring * W :=
  let q := trim value in
  if is_empty q then (value, w)
  else
    let w' := match onQuery with
              | Some callback => callback q w
              | None => w
              end in
    ([], w').

(** The [disabled] attributes: of the field while [loading], of the
    button also while the trimmed text is empty. *)
Definition input_disabled (loading : bool) : bool := loading.

Definition button_disabled (loading : bool) (value : jsstring) : bool :=
  loading || is_empty (trim value).

Inductive event : Type :=
| Change (text : jsstring)
| KeyDown (key : string)
| Click.

(** The handlers as the JSX binds them: [onChange] stores the text,
    [onKeyDown] submits on Enter, [onClick] submits.  None of them reads
    [loading]; it only sets the [disabled] attributes.  React delivers no
    click to a disabled button, which is the one place where the
    attribute decides what runs. *)
Definition handle (onQuery : option (jsstring -> W -> W)) (loading : bool)
  (e : event) (value : jsstring) (w : W) : jsstring * W :=
  match e with
  | Change text => (text, w)
  | KeyDown key =>
      if key =? "Enter" then submit onQuery value w else (value, w)
  | Click =>
      if button_disabled loading value then (value, w)
      else submit onQuery value w
  end.

End Component.

(** A sequence of events, each handled under the [loading] prop the
    parent passes at that moment. *)
Fixpoint handle_all {W : Type} (onQuery : option (jsstring -> W -> W))
  (evs : list (bool * event)) (value : jsstring) (w : W) : jsstring * W :=
  match evs with
  | [] => (value, w)
  | (loading, e) :: rest =>
      let (value', w') := handle onQuery loading e value w in
      handle_all onQuery rest value' w'
  end.

(** A query the parent can be given: not empty, nothing to trim. *)
Definition well_formed_query (q : jsstring) : Prop := q <> [] /\ trim q = q.

(** The callback that records the queries it is given. *)
Definition record_query (q : jsstring) (calls : list jsstring) : list jsstring :=
  calls ++ [q].

End ChatInput.

(** ** Rendered output *)

Module React.

(** An element tree: text, or a tagged element with its string props and
    children.  A child that React skips ([false], [null], [undefined]) is
    simply not in the list. *)
Inductive node : Type :=
| Text (s : string)
| Elem (tag : string) (attrs : list (string * string)) (children : list node).

(** All nodes of a tree, in document order. *)
Fixpoint subtrees (n : node) : list node :=
  n :: match n with
       | Text _ => []
       | Elem _ _ cs => flat_map subtrees cs
       end.

(** The elements with a given tag, in document order. *)
Fixpoint select (tag : string) (n : node) : list node :=
  match n with
  | Text _ => []
  | Elem t _ cs =>
      (if t =? tag then [n] else []) ++ flat_map (select tag) cs
  end.

(** The text a reader sees under a node. *)
Fixpoint text_content (n : node) : string :=
  match n with
  | Text s => s
  | Elem _ _ cs => String.concat "" (map text_content cs)
  end.

Definition attr (name : string) (n : node) : option string :=
  match n with
  | Text _ => None
  | Elem _ attrs _ => JS.own_get attrs name
  end.

Definition has_attr (name val : string) (n : node) : bool :=
  match attr name n with
  | Some v => v =? val
  | None => false
  end.

End React.

(** ** DataTable.js *)

Module DataTable.
Import JS React.

Definition whitelist : list string :=
  ["final location"; "year"; "city"; "__price_computed__"].

(** [k.replace(/__/g, '')]: every occurrence of two underscores, scanning
    from the left. *)
Fixpoint strip_double_underscore (s : string) : string :=
  match s with
  | EmptyString => EmptyString
  | String c t =>
      match t with
      | String c' t' =>
          if ((c =? "_") && (c' =? "_"))%char then strip_double_underscore t'
          else String c (strip_double_underscore t)
      | EmptyString => s
      end
  end.

(** [.replace(/_/g, ' ')]. *)
Fixpoint underscores_to_spaces (s : string) : string :=
  match s with
  | EmptyString => EmptyString
  | String c t =>
      String (if (c =? "_")%char then " "%char else c) (underscores_to_spaces t)
  end.

Definition upper_char (c : ascii) : ascii :=
  let n := nat_of_ascii c in
  if (97 <=? n)%nat && (n <=? 122)%nat then ascii_of_nat (n - 32) else c.

(** [.toUpperCase()], on ASCII text (the whitelisted keys are ASCII;
    beyond ASCII JavaScript maps further letters and may lengthen the
    string). *)
Fixpoint toUpperCase (s : string) : string :=
  match s with
  | EmptyString => EmptyString
  | String c t => String (upper_char c) (toUpperCase t)
  end.

Definition header_label (k : string) : string :=
  toUpperCase (underscores_to_spaces (strip_double_underscore k)).

(** [String(row[k] ?? '')]. *)
Definition cell (row : obj) (k : string) : string :=
  let v := get row k in
  ToString (if nullish v then VStr "" else v).

(** [keys]: the whitelisted names that are [in rows[0]]. *)
Definition columns (rows : list obj) : list string :=
  match rows with
  | [] => []
  | row0 :: _ => filter (fun k => has_own row0 k) whitelist
  end.

Definition th (k : string) : node :=
  Elem "th" [("key", k); ("className", "glass-th")] [Text (header_label k)].

Definition td (row : obj) (k : string) : node :=
  Elem "td" [("key", k); ("className", "glass-td")] [Text (cell row k)].

(** A body row (its React key, the row's index, is left out). *)
Definition body_row (cols : list string) (row : obj) : node :=
  Elem "tr" [("className", "glass-row")] (map (td row) cols).

(** The component: [None] is the [null] it returns for no rows. *)
Definition DataTable (rows : list obj) : option node :=
  match rows with
  | [] => None
  | _ =>
      let keys := columns rows in
      Some
        (Elem "Card" [("className", "glass-card shadow-sm")]
           [Elem "Card.Body" []
              [Elem "Card.Title" [] [Text "Filtered Table"];
               Elem "div" [("className", "glass-table-wrapper")]
                 [Elem "Table"
                    [("bordered", "true"); ("responsive", "true");
                     ("size", "sm"); ("className", "glass-table")]
                    [Elem "thead" [] [Elem "tr" [] (map th keys)];
                     Elem "tbody" [] (map (body_row keys) rows)]]]])
  end.

(** *** Specification vocabulary *)

(** A lower-case ASCII letter. *)
Definition is_lower (c : ascii) : bool :=
  let n := nat_of_ascii c in (97 <=? n)%nat && (n <=? 122)%nat.

(** Every character of the string is ASCII. *)
Fixpoint is_ascii_string (s : string) : bool :=
  match s with
  | EmptyString => true
  | String c t => (nat_of_ascii c <? 128)%nat && is_ascii_string t
  end.





(** Two records hold the same thing under every whitelisted name. *)
Definition same_whitelisted (r r' : obj) : Prop :=
  forall k, In k whitelist -> own_get r k = own_get r' k.

End DataTable.

(** ** SummaryBox.js *)

Module SummaryBox.
Import JS React.

(** The [meta] prop.  [None] stands for a field that is [undefined] or
    [null]; lists are JavaScript arrays of strings. *)
Record meta : Type := {
  used_price_columns : option (list string);
  query_type : option string;
  areas : option (list string);
  area : option string
}.

(** [<Badge bg="success" pill className="me-1">Groq AI</Badge>] *)
Definition provider_badge : node :=
  Elem "Badge" [("bg", "success"); ("pill", "true"); ("className", "me-1")]
    [Text "Groq AI"].

(** [<Badge bg="info" pill>{meta.query_type}</Badge>] *)
Definition query_badge (t : string) : node :=
  Elem "Badge" [("bg", "info"); ("pill", "true")] [Text t].

(** [<Badge key={c} bg="secondary" className="me-1" ...>{c}</Badge>] *)
Definition source_badge (c : string) : node :=
  Elem "Badge" [("key", c); ("bg", "secondary"); ("className", "me-1")]
    [Text c].

Definition areas_label : node := Elem "strong" [] [Text "Areas analyzed:"].

(** [{meta?.areas && (<> <br/> <small>...</small> </>)}]: an array is
    truthy even when empty. *)
Definition areas_block (m : meta) : list node :=
  match areas m with
  | Some names =>
      [Elem "br" [] [];
       Elem "small" [("className", "mt-2 d-block")]
         [areas_label; Text " "; Text (join ", " names)]]
  | None => []
  end.

(** [{meta?.used_price_columns && meta.used_price_columns.length > 0 &&
    (<div>...</div>)}]. *)
Definition sources_block (m : meta) : list node :=
  match used_price_columns m with
  | Some (c :: cs) =>
      [Elem "div" []
         (Elem "small" [("className", "mb-2 d-block")]
            [Elem "strong" [] [Text "Data sources:"]; Text " "]
          :: map source_badge (c :: cs)
          ++ areas_block m)]
  | Some [] | None => []
  end.

(** [{meta?.query_type && (<Badge bg="info">...)}]: a non-empty string. *)
Definition query_type_badge (m : option meta) : list node :=
  match m with
  | Some m' =>
      match query_type m' with
      | Some t => if t =? "" then [] else [query_badge t]
      | None => []
      end
  | None => []
  end.

Definition SummaryBox (summary : string) (m : option meta) : node :=
  Elem "Card" [("className", "shadow-sm")]
    [Elem "Card.Body" []
       ([Elem "div"
           [("className", "d-flex justify-content-between align-items-center mb-3")]
           [Elem "Card.Title" [("className", "mb-0")] [Text "AI Analysis"];
            Elem "div" [] (provider_badge :: query_type_badge m)];
         Elem "Card.Text" [] [Text summary]]
        ++ match m with
           | Some m' => sources_block m'
           | None => []
           end)].

(** The badges of one colour, in document order. *)
Definition badges (bg : string) (tree : node) : list node :=
  filter (has_attr "bg" bg) (select "Badge" tree).

(** *** Specification vocabulary *)

(** The data sources a box is given: none when the metadata or the list
    is missing. *)
Definition sources (m : option meta) : list string :=
  match m with
  | Some m' =>
      match used_price_columns m' with
      | Some cols => cols
      | None => []
      end
  | None => []
  end.

(** The metadata names a query type: a non-empty string. *)
Definition has_query_type (m : option meta) : bool :=
  match m with
  | Some m' =>
      match query_type m' with
      | Some t => negb (t =? "")
      | None => false
      end
  | None => false
  end.

End SummaryBox.

(** ** App.js *)

Module App.
Import JS.

(** The three [useState] cells of the page controller. *)
Record state : Type := {
  data : value;
  loading : bool;
  error : value
}.

Definition setData (v : value) (st : state) : state :=
  {| data := v; loading := loading st; error := error st |}.

Definition setLoading (b : bool) (st : state) : state :=
  {| data := data st; loading := b; error := error st |}.

Definition setError (v : value) (st : state) : state :=
  {| data := data st; loading := loading st; error := v |}.

Definition initial : state :=
  {| data := VNull; loading := false; error := VNull |}.

(** A thrown [Error] object, as far as the handler reads it. *)
Record js_error : Type := { message : string }.

(** How [res.json()] settles. *)
Inductive body : Type :=
| Json (json : value)
| Unparsable (err : js_error).

(** How the request settles: [fetch] rejects, or a response arrives. *)
Inductive outcome : Type :=
| Rejected (err : js_error)
| Responded (status : Z) (b : body).

(** [res.ok]. *)
Definition ok (status : Z) : bool := (200 <=? status)%Z && (status <=? 299)%Z.

(** [a || b]. *)
Definition or_else (a b : value) : value := if truthy a then a else b.

(** [handleHomeClick], after [e.preventDefault()]. *)
Definition handleHomeClick (st : state) : state :=
  setLoading false (setError VNull (setData VNull st)).

(** The part of [handleQuery] that runs at once, up to the first [await]. *)
Definition handleQuery_start (st : state) : state :=
  setData VNull (setLoading true (setError VNull st)).

Definition catch_block (err : js_error) (st : state) : state :=
  setError (or_else (VStr (message err)) (VStr "Network error")) st.

Definition finally_block (st : state) : state := setLoading false st.

(** The controller with the requests still in flight (the submitted text
    of each, oldest first). *)
Record world : Type := {
  ui : state;
  in_flight : list string
}.

Inductive event : Type :=
| Submit (area : string)
| Settle (i : nat) (o : outcome)
| Home.

(** The input, its button and the example buttons are unusable while
    [loading]; only a request in flight can settle. *)
Definition enabled (w : world) (e : event) : bool :=
  match e with
  | Submit _ => negb (loading (ui w))
  | Settle i _ => (i <? List.length (in_flight w))%nat
  | Home => true
  end.

Fixpoint remove_nth {A : Type} (i : nat) (l : list A) : list A :=
  match l, i with
  | [], _ => []
  | _ :: t, O => t
  | x :: t, S j => x :: remove_nth j t
  end.

Definition start : world := {| ui := initial; in_flight := [] |}.

(** The guards of the JSX, in the order of the source: of the example
    queries, the spinner, the error banner, the result panels.  A guard
    says that the fragment is part of what [App] returns; rendering the
    fragment can still fail (an [error] that is an object, a table row
    that is not an object), which these do not model. *)
Definition shows_examples (st : state) : bool :=
  negb (truthy (data st)) && negb (loading st) && negb (truthy (error st)).

Definition shows_spinner (st : state) : bool := loading st.

Definition shows_alert (st : state) : bool := truthy (error st).

Definition shows_results (st : state) : bool :=
  truthy (data st) && negb (loading st).

Section Engine.
(** The [TypeError] the engine throws when a property of [null] is read;
    its text differs between engines. *)
Variable null_member_error : js_error.

(** [json.error]. *)
Definition member_error (json : value) : value + js_error :=
  match json with
  | VUndefined | VNull => inr null_member_error
  | VObj fields => inl (get fields "error")
  | VBool _ | VNum _ | VStr _ | VArr _ => inl VUndefined
  end.

(** The [try] block after the request settled: the state it leaves and the
    exception it throws, if any. *)
Definition try_block (o : outcome) (st : state) : state * option js_error :=
  match o with
  | Rejected err => (st, Some err)
  | Responded _ (Unparsable err) => (st, Some err)
  | Responded status (Json json) =>
      if negb (ok status) then
        match member_error json with
        | inl e => (setError (or_else e (VStr "API error")) st, None)
        | inr err => (st, Some err)
        end
      else (setData json st, None)
  end.

(** The continuation of [handleQuery] that runs when the request settles. *)
Definition handleQuery_settle (o : outcome) (st : state) : state :=
  finally_block
    (match try_block o st with
     | (st', None) => st'
     | (st', Some err) => catch_block err st'
     end).

(** A query run to completion with no other handler in between. *)
Definition handleQuery (o : outcome) (st : state) : state :=
  handleQuery_settle o (handleQuery_start st).

(** One handler run to completion. *)
Definition step (w : world) (e : event) : world :=
  match e with
  | Submit area =>
      {| ui := handleQuery_start (ui w); in_flight := in_flight w ++ [area] |}
  | Settle i o =>
      {| ui := handleQuery_settle o (ui w);
         in_flight := remove_nth i (in_flight w) |}
  | Home => {| ui := handleHomeClick (ui w); in_flight := in_flight w |}
  end.

Inductive reachable : world -> Prop :=
| reachable_start : reachable start
| reachable_step w e :
    reachable w -> enabled w e = true -> reachable (step w e).

Fixpoint run (w : world) (es : list event) : option world :=
  match es with
  | [] => Some w
  | e :: rest => if enabled w e then run (step w e) rest else None
  end.

End Engine.

(** *** Specification vocabulary *)

(** The spec's [RequestState]. *)
Inductive RequestState : Type :=
| Idle
| Loading
| Success (response : value)
| Error (msg : value).

(** The request state the three cells stand for, when they stand for one. *)
Definition phase_of (st : state) : option RequestState :=
  match loading st, nullish (data st), nullish (error st) with
  | true, true, true => Some Loading
  | false, true, true => Some Idle
  | false, false, true => Some (Success (data st))
  | false, true, false => Some (Error (error st))
  | _, _, _ => None
  end.

Definition error_state (msg : value) : state :=
  {| data := VNull; loading := false; error := msg |}.

(** The request failed: no response, no parsable body, or a status
    outside 200..299. *)
Definition failed (o : outcome) : bool :=
  match o with
  | Responded status (Json _) => negb (ok status)
  | Responded _ (Unparsable _) | Rejected _ => true
  end.

(** The message the [catch] clause shows for a failure. *)
Definition failure_message (err : js_error) : value :=
  VStr (if message err =? "" then "Network error" else message err).

(** What a settled request writes: the response ([inl]) or an error
    message ([inr]). *)
Definition settle_writes (null_member_error : js_error) (o : outcome)
  : value + value :=
  match o with
  | Rejected err => inr (failure_message err)
  | Responded _ (Unparsable err) => inr (failure_message err)
  | Responded status (Json json) =>
      if ok status then inl json
      else
        match member_error null_member_error json with
        | inl e => inr (or_else e (VStr "API error"))
        | inr err => inr (failure_message err)
        end
  end.


(** *** Concrete data *)

(** The text of V8's [TypeError] for [null.error]. *)
Definition v8_null_member_error : js_error :=
  {| message := "Cannot read properties of null (reading 'error')" |}.

Definition failed_to_fetch : js_error := {| message := "Failed to fetch" |}.

Definition wakad_response : value :=
  VObj [("summary", VStr "Wakad prices rose."); ("area", VStr "Wakad")].

End App.

(** * Properties *)

(** ** Property lists, numbers, sorting *)

Module JSFacts.
Import JS.

Lemma string_eqb_sym (a b : string) : (a =? b) = (b =? a).
Proof.
  destruct (String.eqb_spec a b) as [->|Hab].
  - now rewrite String.eqb_refl.
  - destruct (String.eqb_spec b a) as [->|_]; [now elim Hab | reflexivity].
Qed.

Section PropsFacts.
Context {A : Type}.
Implicit Types (o : props A) (k : string) (v : A).

Lemma own_get_In o k v : own_get o k = Some v -> In (k, v) o.
Proof.
  induction o as [|[k' v'] t IH]; simpl; [discriminate|].
  destruct (String.eqb_spec k' k) as [->|_].
  - intros [= ->]. now left.
  - intros H. right. now apply IH.
Qed.

Lemma has_own_keys o k : has_own o k = true <-> In k (keys o).
Proof.
  unfold has_own.
  induction o as [|[k' v'] t IH]; simpl.
  - split; [discriminate | contradiction].
  - destruct (String.eqb_spec k' k) as [->|Hne].
    + split; auto.
    + rewrite IH. split; [now right | intros [H|H]; [contradiction | exact H]].
Qed.

Lemma has_own_false o k : has_own o k = false <-> ~ In k (keys o).
Proof.
  rewrite <- has_own_keys. destruct (has_own o k); split; congruence.
Qed.

Lemma In_own_get o k v : NoDup (keys o) -> In (k, v) o -> own_get o k = Some v.
Proof.
  induction o as [|[k' v'] t IH]; simpl; [contradiction|].
  intros Hnd [Heq|Hin].
  - injection Heq as -> ->. now rewrite String.eqb_refl.
  - inversion Hnd as [|? ? Hnotin Hnd']; subst.
    destruct (String.eqb_spec k' k) as [->|_].
    + elim Hnotin. change (In (fst (k, v)) (map fst t)). now apply in_map.
    + now apply IH.
Qed.

Lemma keys_update o k v : keys (update o k v) = keys o.
Proof.
  induction o as [|[k' v'] t IH]; simpl; [reflexivity|].
  destruct (String.eqb_spec k' k) as [->|_]; simpl; [reflexivity|].
  now rewrite IH.
Qed.

Lemma own_get_update o k v k' :
  own_get (update o k v) k' =
  if k =? k' then option_map (fun _ => v) (own_get o k) else own_get o k'.
Proof.
  induction o as [|[k0 v0] t IH]; simpl.
  - now destruct (k =? k').
  - destruct (String.eqb_spec k0 k) as [->|Hne]; simpl.
    + now destruct (k =? k').
    + rewrite IH. destruct (String.eqb_spec k k') as [->|Hkk'].
      * destruct (String.eqb_spec k0 k'); [contradiction | reflexivity].
      * reflexivity.
Qed.

Lemma keys_insert_index i o k v :
  Permutation (k :: keys o) (keys (insert_index i k v o)).
Proof.
  induction o as [|[k' v'] t IH]; simpl; [reflexivity|].
  destruct (array_index k') as [j|]; [|reflexivity].
  destruct (j <? i)%N; [|reflexivity].
  simpl. rewrite perm_swap. now apply perm_skip.
Qed.

Lemma own_get_insert_index i o k v k' :
  has_own o k = false ->
  own_get (insert_index i k v o) k' =
  if k =? k' then Some v else own_get o k'.
Proof.
  unfold has_own.
  induction o as [|[k0 v0] t IH]; simpl; [reflexivity|].
  destruct (String.eqb_spec k0 k) as [->|Hne]; [discriminate|].
  intros Hno.
  destruct (array_index k0) as [j|]; [destruct (j <? i)%N|]; simpl;
    try reflexivity.
  rewrite (IH Hno).
  destruct (String.eqb_spec k k') as [->|_]; [|reflexivity].
  destruct (String.eqb_spec k0 k'); [contradiction | reflexivity].
Qed.

Lemma own_get_app o k v k' :
  has_own o k = false ->
  own_get (o ++ [(k, v)]) k' = if k =? k' then Some v else own_get o k'.
Proof.
  unfold has_own.
  induction o as [|[k0 v0] t IH]; simpl; [reflexivity|].
  destruct (String.eqb_spec k0 k) as [->|Hne]; [discriminate|].
  intros Hno. rewrite (IH Hno).
  destruct (String.eqb_spec k k') as [->|_]; [|reflexivity].
  destruct (String.eqb_spec k0 k'); [contradiction | reflexivity].
Qed.

(** Reading back after a write: the written name holds the new value and
    every other name is untouched. *)
Lemma own_get_set_prop o k v k' :
  own_get (set_prop o k v) k' = if k =? k' then Some v else own_get o k'.
Proof.
  unfold set_prop. destruct (has_own o k) eqn:Hown.
  - rewrite own_get_update. unfold has_own in Hown.
    now destruct (own_get o k).
  - destruct (array_index k).
    + now apply own_get_insert_index.
    + now apply own_get_app.
Qed.

Lemma own_get_assign o k v k' :
  k <> "__proto__" ->
  own_get (assign o k v) k' = if k =? k' then Some v else own_get o k'.
Proof.
  intros Hk. unfold assign.
  destruct (String.eqb_spec k "__proto__"); [contradiction|].
  apply own_get_set_prop.
Qed.

Lemma own_get_assign_other o k v k' :
  k <> k' -> own_get (assign o k v) k' = own_get o k'.
Proof.
  intros Hk. unfold assign.
  destruct (k =? "__proto__"); [reflexivity|].
  rewrite own_get_set_prop.
  destruct (String.eqb_spec k k'); [contradiction | reflexivity].
Qed.

Lemma keys_set_prop o k v :
  Permutation (if has_own o k then keys o else k :: keys o)
    (keys (set_prop o k v)).
Proof.
  unfold set_prop. destruct (has_own o k).
  - now rewrite keys_update.
  - destruct (array_index k).
    + apply keys_insert_index.
    + unfold keys. rewrite map_app. simpl. apply Permutation_cons_append.
Qed.

Lemma NoDup_keys_set_prop o k v : NoDup (keys o) -> NoDup (keys (set_prop o k v)).
Proof.
  intros Hnd. eapply Permutation_NoDup; [apply keys_set_prop|].
  destruct (has_own o k) eqn:Hown; [exact Hnd|].
  constructor; [now apply has_own_false | exact Hnd].
Qed.

Lemma NoDup_keys_assign o k v : NoDup (keys o) -> NoDup (keys (assign o k v)).
Proof.
  intros Hnd. unfold assign.
  destruct (k =? "__proto__"); [exact Hnd | now apply NoDup_keys_set_prop].
Qed.

Lemma In_values o v : In v (values o) <-> exists k, In (k, v) o.
Proof.
  unfold values. rewrite in_map_iff. split.
  - intros [[k v'] [Hv Hin]]. simpl in Hv. subst. now exists k.
  - intros [k Hin]. now exists (k, v).
Qed.

End PropsFacts.

(** *** Facts about [number_to_string] *)

Lemma to_int_proper (n : Z) :
  Z.to_int n <> Decimal.Pos Decimal.Nil /\ Z.to_int n <> Decimal.Neg Decimal.Nil.
Proof.
  destruct n; simpl; split; try discriminate; intros [= H];
    now apply DecimalPos.Unsigned.to_uint_nonnil in H.
Qed.

Lemma number_of_string (n : Z) :
  NilZero.int_of_string (number_to_string n) = Some (Z.to_int n).
Proof.
  unfold number_to_string. destruct (to_int_proper n).
  now apply NilZero.isi.
Qed.

Lemma number_to_string_inj (n m : Z) :
  number_to_string n = number_to_string m -> n = m.
Proof.
  intros H. apply DecimalZ.to_int_inj.
  generalize (number_of_string n). rewrite H, number_of_string. congruence.
Qed.

Lemma number_to_string_not_proto (n : Z) : number_to_string n <> "__proto__".
Proof.
  intros H. generalize (number_of_string n). rewrite H. discriminate.
Qed.

(** *** The sort returns a sorted, stable rearrangement *)

Section SortFacts.
Context {A : Type} (cmp : A -> A -> option Z) (f : A -> Z) (P : A -> Prop).
Hypothesis cmp_sub : forall a b, P a -> P b -> cmp a b = Some (f a - f b)%Z.

Lemma insert_sorted_ok x l :
  P x -> Forall P l -> StronglySorted (le_key f) l ->
  exists l', insert_sorted cmp x l = Some l' /\ Permutation (x :: l) l' /\
             StronglySorted (le_key f) l'.
Proof.
  intros Hx Hl Hs. induction l as [|y t IH]; simpl.
  - exists [x]. repeat split; auto. repeat constructor.
  - inversion Hl as [|? ? Hy Ht]; subst.
    inversion Hs as [|? ? Hst Hyt]; subst.
    rewrite (cmp_sub x y Hx Hy).
    destruct (Z.leb_spec (f x - f y) 0) as [Hle|Hgt].
    + exists (x :: y :: t). repeat split; auto.
      constructor; [exact Hs|]. constructor; [unfold le_key; lia|].
      rewrite Forall_forall in Hyt |- *. intros z Hz.
      specialize (Hyt z Hz). unfold le_key in *. lia.
    + destruct (IH Ht Hst) as (t' & -> & Hperm & Hsorted).
      exists (y :: t'). repeat split.
      * rewrite perm_swap. now apply perm_skip.
      * constructor; [exact Hsorted|].
        rewrite Forall_forall. intros z Hz.
        apply (Permutation_in _ (Permutation_sym Hperm)) in Hz.
        destruct Hz as [<-|Hz]; [unfold le_key; lia|].
        rewrite Forall_forall in Hyt. now apply Hyt.
Qed.

Lemma sort_by_ok l :
  Forall P l ->
  exists l', sort_by cmp l = Some l' /\ Permutation l l' /\
             StronglySorted (le_key f) l'.
Proof.
  induction l as [|x t IH]; intros Hl; simpl.
  - exists []. repeat split; auto. constructor.
  - inversion Hl as [|? ? Hx Ht]; subst.
    destruct (IH Ht) as (t' & -> & Hperm & Hsorted).
    assert (Ht' : Forall P t').
    { rewrite Forall_forall in Ht |- *. intros z Hz. apply Ht.
      now apply (Permutation_in _ (Permutation_sym Hperm)). }
    destruct (insert_sorted_ok x t' Hx Ht' Hsorted) as (l' & -> & Hp & Hs).
    exists l'. repeat split; auto.
    rewrite <- Hp. now apply perm_skip.
Qed.

End SortFacts.

Lemma sorted_nodup_strict (l : list Z) :
  StronglySorted Z.le l -> NoDup l -> StronglySorted Z.lt l.
Proof.
  induction 1 as [|x t Hs IH Hx]; intros Hnd; constructor;
    inversion Hnd as [|? ? Hnotin Hnd']; subst; auto.
  rewrite Forall_forall in Hx |- *. intros y Hy.
  specialize (Hx y Hy). assert (x <> y) by (intros ->; contradiction). lia.
Qed.

Lemma sorted_map {A : Type} (f : A -> Z) (l : list A) :
  StronglySorted (le_key f) l -> StronglySorted Z.le (map f l).
Proof.
  induction 1 as [|x t Hs IH Hx]; simpl; constructor; auto.
  rewrite Forall_forall in Hx |- *. intros y Hy.
  apply in_map_iff in Hy as (z & <- & Hz). now apply Hx.
Qed.

End JSFacts.

(** ** PriceChart.js: the chart data *)

Module PriceChartFacts.
Import JS JSFacts PriceChart.

Example spec_input_pivot : PriceChart spec_input = Some (Comparison spec_output).
Proof. reflexivity. Qed.

(** *** The grouping loop *)

Lemma contributes_spec y k d :
  contributes y k d = true <-> get d "year" = VNum y /\ area_key d = k.
Proof.
  unfold contributes. rewrite andb_true_iff, String.eqb_eq.
  destruct (get d "year");
    try (split; intros [H _]; discriminate H).
  rewrite Z.eqb_eq. split; intros [H1 H2]; split; congruence.
Qed.

Lemma last_price_snoc pre d y k :
  last_price (pre ++ [d]) y k =
  if contributes y k d then Some (get d "__price_computed__")
  else last_price pre y k.
Proof.
  unfold last_price. rewrite rev_app_distr. simpl.
  now destruct (contributes y k d).
Qed.

Lemma last_price_None data y k :
  last_price data y k = None <->
  forall d, In d data -> contributes y k d = false.
Proof.
  unfold last_price. split.
  - intros H d Hd. destruct (find _ _) eqn:Hf; [discriminate|].
    apply (find_none _ _ Hf). now apply in_rev in Hd.
  - intros H. destruct (find _ _) as [d|] eqn:Hf; [|reflexivity].
    apply find_some in Hf as [Hin Hc]. apply in_rev in Hin.
    rewrite (H d Hin) in Hc. discriminate.
Qed.

Lemma last_price_Some data y k v :
  last_price data y k = Some v ->
  exists d, In d data /\ contributes y k d = true /\
            v = get d "__price_computed__".
Proof.
  unfold last_price. destruct (find _ _) as [d|] eqn:Hf; [|discriminate].
  intros [= <-]. apply find_some in Hf as [Hin Hc]. apply in_rev in Hin.
  now exists d.
Qed.

Lemma Inv_empty : Inv [] [].
Proof.
  split; [constructor|]. split; [discriminate | contradiction].
Qed.

Lemma group_step_inv pre yearMap d y :
  get d "year" = VNum y -> area_key d <> "year" -> Inv pre yearMap ->
  exists yearMap', group_step yearMap d = Some yearMap' /\
                   Inv (pre ++ [d]) yearMap'.
Proof.
  intros Hy Ha (Hnd & Hrows & Hseen).
  unfold group_step. cbv zeta. rewrite Hy. cbn [year_key].
  set (key := number_to_string y).
  set (ym1 := if has_own yearMap key then yearMap
              else assign yearMap key [("year", VNum y)]).
  assert (Hkey : key <> "__proto__") by apply number_to_string_not_proto.
  assert (H1 : exists row, own_get ym1 key = Some row /\
             get row "year" = VNum y /\
             (forall k, k <> "year" -> k <> "__proto__" ->
                        own_get row k = last_price pre y k)).
  { subst ym1. destruct (has_own yearMap key) eqn:Hown.
    - unfold has_own in Hown.
      destruct (own_get yearMap key) as [row|] eqn:Hrow; [|discriminate].
      exists row. split; [reflexivity|].
      destruct (Hrows _ _ Hrow) as (y' & Hk & Hry & _ & Hf).
      apply number_to_string_inj in Hk. subst y'. now split.
    - exists [("year", VNum y)].
      rewrite own_get_assign, String.eqb_refl by exact Hkey.
      split; [reflexivity|]. split; [reflexivity|]. intros k Hk _.
      cbn [own_get].
      destruct (String.eqb_spec "year" k) as [<-|_]; [now elim Hk|].
      symmetry. apply last_price_None. intros d0 Hd0.
      destruct (contributes y k d0) eqn:Hc; [|reflexivity].
      apply contributes_spec in Hc as [Hc _].
      pose proof (Hseen d0 y Hd0 Hc) as Hs. fold key in Hs. congruence. }
  assert (Hnd1 : NoDup (keys ym1)).
  { subst ym1. destruct (has_own yearMap key); [exact Hnd|].
    now apply NoDup_keys_assign. }
  assert (Hother : forall key', key <> key' ->
                     own_get ym1 key' = own_get yearMap key').
  { intros key' Hne. subst ym1. destruct (has_own yearMap key);
      [reflexivity | now apply own_get_assign_other]. }
  destruct H1 as (row & Hrow & Hry & Hf). rewrite Hrow.
  eexists. split; [reflexivity|].
  set (row' := assign row (ToString (get d "area")) (get d "__price_computed__")).
  split; [now apply NoDup_keys_assign|]. split.
  - intros key' r. rewrite own_get_assign by exact Hkey.
    destruct (String.eqb_spec key key') as [<-|Hne].
    + intros [= <-]. exists y. split; [reflexivity|]. split.
      { unfold get, row'. rewrite own_get_assign_other by exact Ha. exact Hry. }
      split.
      { exists d. split; [apply in_or_app; right; now left | exact Hy]. }
      intros k Hk Hp. rewrite last_price_snoc. unfold contributes.
      rewrite Hy, Z.eqb_refl. simpl. unfold row'. fold (area_key d).
      destruct (String.eqb_spec (area_key d) k) as [Hak|Hak].
      * rewrite own_get_assign by congruence.
        now rewrite Hak, String.eqb_refl.
      * rewrite own_get_assign_other by exact Hak. now apply Hf.
    + rewrite (Hother _ Hne). intros Hr.
      destruct (Hrows _ _ Hr) as (y' & Hk & Hry' & (d0 & Hd0 & Hd0y) & Hf').
      exists y'. repeat split; auto.
      { exists d0. split; [apply in_or_app; now left | exact Hd0y]. }
      intros k Hk1 Hk2. rewrite last_price_snoc. unfold contributes.
      rewrite Hy. destruct (Z.eqb_spec y y') as [->|_]; [now elim Hne|].
      simpl. now apply Hf'.
  - intros d0 y0 Hd0 Hy0. unfold has_own.
    rewrite own_get_assign by exact Hkey.
    destruct (String.eqb_spec key (number_to_string y0)) as [_|Hne];
      [reflexivity|].
    rewrite (Hother _ Hne).
    apply in_app_or in Hd0 as [Hd0|[<-|[]]].
    + exact (Hseen d0 y0 Hd0 Hy0).
    + elim Hne. subst key. congruence.
Qed.

Lemma group_by_year_inv data : forall pre yearMap,
  Forall numeric_year data ->
  Forall (fun d => area_key d <> "year") data ->
  Inv pre yearMap ->
  exists yearMap', group_by_year yearMap data = Some yearMap' /\
                   Inv (pre ++ data) yearMap'.
Proof.
  induction data as [|d rest IH]; intros pre yearMap Hnum Harea Hinv; simpl.
  - exists yearMap. now rewrite app_nil_r.
  - inversion Hnum as [|? ? [y Hy] Hnum']; subst.
    inversion Harea as [|? ? Ha Harea']; subst.
    destruct (group_step_inv pre yearMap d y Hy Ha Hinv) as (ym' & -> & Hinv').
    destruct (IH _ _ Hnum' Harea' Hinv') as (ym'' & Hg & Hinv'').
    exists ym''. split; [exact Hg|]. now rewrite <- app_assoc in Hinv''.
Qed.

Lemma year_diff_numeric (a b : obj) :
  numeric_year a -> numeric_year b ->
  year_diff a b = Some (row_year a - row_year b)%Z.
Proof.
  intros [x Hx] [y Hy]. unfold year_diff, row_year. now rewrite Hx, Hy.
Qed.

(** *** The comparison rows *)

Lemma comparison_chartData_spec data :
  Forall numeric_year data ->
  Forall (fun d => area_key d <> "year") data ->
  exists rows, comparison_chartData data = Some rows /\
    Forall numeric_year rows /\
    StronglySorted Z.lt (map row_year rows) /\
    (forall y, In y (map row_year rows) <->
               exists d, In d data /\ get d "year" = VNum y) /\
    (forall r k, In r rows -> k <> "year" -> k <> "__proto__" ->
                 own_get r k = last_price data (row_year r) k).
Proof.
  intros Hnum Harea.
  destruct (group_by_year_inv data [] [] Hnum Harea Inv_empty)
    as (ym & Hg & Hnd & Hrows & Hseen).
  simpl in Hrows, Hseen.
  unfold comparison_chartData. rewrite Hg.
  assert (Hval : forall r, In r (values ym) ->
            exists y, own_get ym (number_to_string y) = Some r /\
                      get r "year" = VNum y).
  { intros r Hr. apply In_values in Hr as [key Hin].
    apply (In_own_get _ _ _ Hnd) in Hin.
    destruct (Hrows _ _ Hin) as (y & -> & Hy & _). now exists y. }
  assert (Hall : Forall numeric_year (values ym)).
  { rewrite Forall_forall. intros r Hr.
    destruct (Hval r Hr) as (y & _ & Hy). now exists y. }
  destruct (sort_by_ok year_diff row_year numeric_year year_diff_numeric
              (values ym) Hall) as (rows & Hsort & Hperm & Hsorted).
  assert (Hin : forall r, In r rows <-> In r (values ym)).
  { intros r. split; apply Permutation_in;
      [now apply Permutation_sym | exact Hperm]. }
  exists rows. split; [exact Hsort|]. split; [|split; [|split]].
  - rewrite Forall_forall in Hall |- *. intros r Hr. now apply Hall, Hin.
  - apply sorted_nodup_strict; [now apply sorted_map|].
    apply (Permutation_NoDup (Permutation_map row_year Hperm)).
    apply (NoDup_map_inv number_to_string).
    replace (map number_to_string (map row_year (values ym))) with (keys ym);
      [exact Hnd|].
    unfold values, keys. rewrite !map_map. apply map_ext_in.
    intros [key r] Hkr. simpl.
    apply (In_own_get _ _ _ Hnd) in Hkr.
    destruct (Hrows _ _ Hkr) as (y & -> & Hy & _).
    unfold row_year. now rewrite Hy.
  - intros y. rewrite in_map_iff. split.
    + intros (r & <- & Hr). apply Hin in Hr.
      destruct (Hval r Hr) as (y & Hget & Hy).
      destruct (Hrows _ _ Hget) as (y' & Hk & _ & Hd & _).
      apply number_to_string_inj in Hk. subst y'.
      unfold row_year. now rewrite Hy.
    + intros (d & Hd & Hy). specialize (Hseen d y Hd Hy).
      unfold has_own in Hseen.
      destruct (own_get ym (number_to_string y)) as [r|] eqn:Hr;
        [|discriminate].
      exists r. split.
      * destruct (Hrows _ _ Hr) as (y' & Hk & Hy' & _).
        apply number_to_string_inj in Hk. subst y'.
        unfold row_year. now rewrite Hy'.
      * apply Hin, In_values. exists (number_to_string y).
        now apply own_get_In.
  - intros r k Hr Hk Hp. apply Hin in Hr.
    destruct (Hval r Hr) as (y & Hget & Hy).
    destruct (Hrows _ _ Hget) as (y' & Hkey & _ & _ & Hf).
    apply number_to_string_inj in Hkey. subst y'.
    unfold row_year. rewrite Hy. now apply Hf.
Qed.

Lemma isComparison_truthy data :
  isComparison data = true <->
  exists d, In d data /\ truthy (get d "area") = true.
Proof. unfold isComparison. apply existsb_exists. Qed.

(** C1 (as amended).  In comparison mode, for records with numeric years
    and no area stored under the name [year]: the chart receives rows with
    numeric years, strictly ascending, one for each year of the input and
    no other; in the row of year [y] every name [k] other than [year]
    (and the accessor [__proto__]) holds the value of the last input
    record of year [y] and area [k], and is absent when the input has no
    such record.  The spec's three-record example yields its two rows. *)
Theorem comparison_rows_by_year :
  (forall data,
     isComparison data = true ->
     Forall numeric_year data ->
     Forall (fun d => area_key d <> "year") data ->
     exists rows, PriceChart data = Some (Comparison rows) /\
       Forall numeric_year rows /\
       StronglySorted Z.lt (map row_year rows) /\
       (forall y, In y (map row_year rows) <->
                  exists d, In d data /\ get d "year" = VNum y) /\
       (forall r k, In r rows -> k <> "year" -> k <> "__proto__" ->
          own_get r k = last_price data (row_year r) k /\
          (has_own r k = true <->
           exists d, In d data /\ get d "year" = VNum (row_year r) /\
                     area_key d = k)))
  /\ PriceChart spec_input = Some (Comparison spec_output).
Proof.
  split; [|reflexivity].
  intros data Hcmp Hnum Harea.
  destruct (comparison_chartData_spec data Hnum Harea)
    as (rows & Hrows & Hny & Hsorted & Hyears & Hfields).
  exists rows. split.
  - unfold PriceChart. rewrite Hcmp, Hrows.
    destruct data; [discriminate Hcmp | reflexivity].
  - repeat (split; [assumption|]).
    intros r k Hr Hk Hp. specialize (Hfields r k Hr Hk Hp).
    split; [exact Hfields|]. unfold has_own. rewrite Hfields. split.
    + destruct (last_price data (row_year r) k) as [v|] eqn:Hl;
        [|discriminate]. intros _.
      apply last_price_Some in Hl as (d & Hd & Hc & _).
      apply contributes_spec in Hc. now exists d.
    + intros (d & Hd & Hy & Ha).
      destruct (last_price data (row_year r) k) eqn:Hl; [reflexivity|].
      rewrite last_price_None in Hl. specialize (Hl d Hd).
      assert (contributes (row_year r) k d = true)
        by now apply contributes_spec.
      congruence.
Qed.

(** The amended statement applies to the spec's example input. *)
Lemma comparison_rows_by_year_witness :
  exists rows, PriceChart spec_input = Some (Comparison rows) /\
    Forall numeric_year rows /\
    StronglySorted Z.lt (map row_year rows) /\
    (forall y, In y (map row_year rows) <->
               exists d, In d spec_input /\ get d "year" = VNum y) /\
    (forall r k, In r rows -> k <> "year" -> k <> "__proto__" ->
       own_get r k = last_price spec_input (row_year r) k /\
       (has_own r k = true <->
        exists d, In d spec_input /\ get d "year" = VNum (row_year r) /\
                  area_key d = k)).
Proof.
  apply (proj1 comparison_rows_by_year spec_input).
  - reflexivity.
  - repeat constructor; eexists; reflexivity.
  - repeat constructor; discriminate.
Defined.

(** C1 as stated fails when an area is called [year]: its value replaces
    the row's year, so the 2021 records produce a row of year 4800 and no
    row of year 2021. *)
Lemma area_named_year_overwrites :
  isComparison [rec 2021 "Wakad" 5000; rec 2021 "year" 4800] = true /\
  exists rows,
    PriceChart [rec 2021 "Wakad" 5000; rec 2021 "year" 4800]
      = Some (Comparison rows) /\
    rows = [[("year", VNum 4800); ("Wakad", VNum 5000)]] /\
    ~ In 2021%Z (map row_year rows).
Proof.
  split; [reflexivity|]. eexists. split; [reflexivity|].
  split; [reflexivity|]. simpl. unfold row_year. simpl.
  intros [H|[]]. discriminate H.
Qed.

(** *** Mode selection *)

(** C2, at the failing input.  Comparison mode is selected exactly when
    some record's [area] is truthy.  So for a record that carries an
    [area] field holding the empty string (or [null]) the component draws
    the single-series chart. *)
Theorem empty_area_is_single_series :
  (forall data,
     isComparison data = true <->
     exists d, In d data /\ truthy (get d "area") = true) /\
  has_own [("year", VNum 2021); ("area", VStr ""); ("__price_computed__", VNum 5000)]
    "area" = true /\
  isComparison
    [[("year", VNum 2021); ("area", VStr ""); ("__price_computed__", VNum 5000)]]
    = false /\
  PriceChart
    [[("year", VNum 2021); ("area", VStr ""); ("__price_computed__", VNum 5000)]]
    = Some (SingleSeries [[("year", VNum 2021); ("price", VNum 5000)]]) /\
  has_own [("year", VNum 2021); ("area", VNull); ("__price_computed__", VNum 5000)]
    "area" = true /\
  isComparison
    [[("year", VNum 2021); ("area", VNull); ("__price_computed__", VNum 5000)]]
    = false.
Proof. split; [exact isComparison_truthy | repeat split]. Qed.

(** *** The single series *)

Lemma single_chartData_points data :
  List.length (single_chartData data) = List.length data /\
  forall i d, nth_error data i = Some d ->
    exists p, nth_error (single_chartData data) i
              = Some [("year", get d "year"); ("price", p)] /\
      (nullish (get d "__price_computed__") = false ->
       p = get d "__price_computed__") /\
      (nullish (get d "__price_computed__") = true -> p = fallback_price d).
Proof.
  unfold single_chartData. split; [apply length_map|].
  intros i d Hd. rewrite nth_error_map, Hd. simpl. unfold single_point.
  eexists. split; [reflexivity|].
  destruct (nullish (get d "__price_computed__")); simpl;
    split; congruence.
Qed.

(** Where no other numeric field has the year's value, the fallback is the
    first numeric field that is not the year field. *)
Lemma fallback_price_agrees (d : obj) :
  NoDup (keys d) ->
  (forall k v, In (k, v) d -> k <> "year" -> v <> get d "year") ->
  fallback_price d = first_numeric_non_year d.
Proof.
  intros Hnd Hne. unfold fallback_price, first_numeric_non_year, values.
  assert (Hyear : forall v, In ("year", v) d -> get d "year" = v).
  { intros v Hv. unfold get. now rewrite (In_own_get _ _ _ Hnd Hv). }
  revert Hne Hyear. generalize (get d "year") as year. clear Hnd.
  induction d as [|[k v] t IH]; intros year Hne Hyear; simpl; [reflexivity|].
  assert (IH' := IH year (fun k v H => Hne k v (or_intror H))
                   (fun v H => Hyear v (or_intror H))).
  destruct (String.eqb_spec k "year") as [->|Hk]; simpl.
  - pose proof (Hyear v (or_introl eq_refl)) as Hv. subst year.
    destruct v; simpl; try exact IH'. now rewrite Z.eqb_refl.
  - specialize (Hne k v (or_introl eq_refl) Hk).
    destruct v; simpl; try exact IH'.
    destruct year; simpl; try reflexivity.
    destruct (Z.eqb_spec n n0) as [->|_]; [now elim Hne | reflexivity].
Qed.

(** C3, at the failing input.  The record's first numeric field other than
    [year] is [units] = 2020, but its value equals the year's, so the test
    [v !== d.year] skips it and the chart plots [rate] = 4000. *)
Theorem fallback_skips_value_equal_to_year :
  isComparison
    [[("year", VNum 2020); ("units", VNum 2020); ("rate", VNum 4000)]] = false /\
  first_numeric_non_year
    [("year", VNum 2020); ("units", VNum 2020); ("rate", VNum 4000)]
    = VNum 2020 /\
  PriceChart
    [[("year", VNum 2020); ("units", VNum 2020); ("rate", VNum 4000)]]
    = Some (SingleSeries [[("year", VNum 2020); ("price", VNum 4000)]]).
Proof. repeat split. Qed.

Example spec_single_series :
  PriceChart
    [[("year", VNum 2020); ("__price_computed__", VNum 4000)];
     [("year", VNum 2021); ("__price_computed__", VNum 4400)]]
  = Some (SingleSeries
            [[("year", VNum 2020); ("price", VNum 4000)];
             [("year", VNum 2021); ("price", VNum 4400)]]).
Proof. reflexivity. Qed.

(** *** Series and colours *)

Lemma same_value_zero_eq a b : same_value_zero a b = true -> a = b.
Proof.
  destruct a, b; simpl; try discriminate; try reflexivity.
  - intros H. now apply Bool.eqb_prop in H as ->.
  - intros H. now apply Z.eqb_eq in H as ->.
  - intros H. now apply String.eqb_eq in H as ->.
Qed.

Lemma same_value_zero_refl a : primitive a = true -> same_value_zero a a = true.
Proof.
  destruct a; simpl; try discriminate; intros _; try reflexivity.
  - apply Bool.eqb_reflx.
  - apply Z.eqb_refl.
  - apply String.eqb_refl.
Qed.

Lemma set_add_all_In l : forall set a,
  In a (set_add_all set l) <-> In a set \/ In a l.
Proof.
  induction l as [|v t IH]; intros set a; simpl; [tauto|].
  rewrite IH. destruct (existsb (same_value_zero v) set) eqn:Hex.
  - apply existsb_exists in Hex as (x & Hx & Heq).
    apply same_value_zero_eq in Heq. subst x.
    split; [tauto | intros [H|[<-|H]]; tauto].
  - rewrite in_app_iff. simpl. tauto.
Qed.

Lemma set_add_all_NoDup l : forall set,
  forallb primitive l = true -> NoDup set -> NoDup (set_add_all set l).
Proof.
  induction l as [|v t IH]; intros set Hp Hnd; simpl; [exact Hnd|].
  simpl in Hp. apply andb_true_iff in Hp as [Hv Ht].
  apply IH; [exact Ht|].
  destruct (existsb (same_value_zero v) set) eqn:Hex; [exact Hnd|].
  apply NoDup_app; [exact Hnd | repeat constructor; intros [] |].
  intros x Hx [Hvx|[]]. subst x.
  assert (existsb (same_value_zero v) set = true); [|congruence].
  apply existsb_exists. exists v. split; [exact Hx|].
  now apply same_value_zero_refl.
Qed.

Lemma set_add_all_prefix l : forall set,
  exists tail, set_add_all set l = set ++ tail.
Proof.
  induction l as [|v t IH]; intros set; simpl.
  - exists []. now rewrite app_nil_r.
  - destruct (existsb (same_value_zero v) set); [apply IH|].
    destruct (IH (set ++ [v])) as [tail ->].
    exists (v :: tail). now rewrite <- app_assoc.
Qed.

Lemma set_add_all_length l : forall set,
  (List.length (set_add_all set l) <= List.length set + List.length l)%nat.
Proof.
  induction l as [|v t IH]; intros set; simpl; [lia|].
  destruct (existsb (same_value_zero v) set).
  - specialize (IH set). lia.
  - specialize (IH (set ++ [v])). rewrite length_app in IH. simpl in IH. lia.
Qed.

Lemma areas_In (data : list obj) (a : value) :
  In a (areas data) <-> exists d, In d data /\ get d "area" = a.
Proof.
  unfold areas. rewrite set_add_all_In, in_map_iff. simpl. split.
  - intros [[]|(d & Hd & Hin)]. now exists d.
  - intros (d & Hin & Hd). right. now exists d.
Qed.

(** X1.  The series of the comparison chart are the areas of the records:
    a value is a series exactly when some record has it as its area; the
    first record's area comes first; there are at most as many series as
    records; and when the areas are not arrays or objects no series is
    repeated. *)
Theorem areas_are_the_distinct_areas :
  forall data : list obj,
    (forall a, In a (areas data) <-> exists d, In d data /\ get d "area" = a) /\
    (List.length (areas data) <= List.length data)%nat /\
    (forall d rest, data = d :: rest ->
       exists tail, areas data = get d "area" :: tail) /\
    (forallb (fun d => primitive (get d "area")) data = true ->
     NoDup (areas data)).
Proof.
  intros data. split; [exact (areas_In data)|]. unfold areas.
  split; [|split].
  - pose proof (set_add_all_length (map (fun d => get d "area") data) []) as H.
    rewrite length_map in H. exact H.
  - intros d rest ->. simpl.
    destruct (set_add_all_prefix (map (fun d => get d "area") rest)
                [get d "area"]) as [tail ->].
    now exists tail.
  - intros Hp. apply set_add_all_NoDup; [|constructor].
    rewrite forallb_forall in Hp |- *. intros v Hv.
    apply in_map_iff in Hv as (d & <- & Hd). now apply Hp.
Qed.

Lemma areas_NoDup_witness :
  NoDup (areas spec_input).
Proof.
  apply (proj2 (proj2 (proj2 (areas_are_the_distinct_areas spec_input)))).
  reflexivity.
Defined.

Lemma lines_from_nth l : forall k i,
  nth_error (lines_from k l) i =
  option_map (fun a => {| dataKey := a;
                          stroke := nth ((k + i) mod List.length colors) colors "" |})
    (nth_error l i).
Proof.
  induction l as [|a t IH]; intros k i; simpl.
  - now destruct i.
  - destruct i as [|i]; simpl.
    + now rewrite Nat.add_0_r.
    + rewrite IH. now rewrite Nat.add_succ_r.
Qed.

Lemma color_cycle i j :
  nth (i mod List.length colors) colors "" = nth (j mod List.length colors) colors ""
  <-> i mod 4 = j mod 4.
Proof.
  change (List.length colors) with 4%nat.
  pose proof (Nat.mod_upper_bound i 4) as Hi.
  pose proof (Nat.mod_upper_bound j 4) as Hj.
  destruct (i mod 4) as [|[|[|[|?]]]]; try lia;
    destruct (j mod 4) as [|[|[|[|?]]]]; try lia;
    simpl; split; intros H; try reflexivity; try discriminate H.
Qed.

(** X2.  One line is drawn per series, in order, the [i]-th with the
    series as its data key and the palette colour number [i mod 4]; two
    lines have the same colour exactly when their positions differ by a
    multiple of four, so up to four series get four different colours. *)
Theorem line_colours_cycle :
  forall data : list obj,
    map dataKey (lines data) = areas data /\
    (forall i ln, nth_error (lines data) i = Some ln ->
       nth_error colors (i mod 4) = Some (stroke ln)) /\
    (forall i j li lj,
       nth_error (lines data) i = Some li ->
       nth_error (lines data) j = Some lj ->
       (stroke li = stroke lj <-> i mod 4 = j mod 4)) /\
    ((List.length (areas data) <= 4)%nat -> NoDup (map stroke (lines data))).
Proof.
  intros data. unfold lines.
  assert (Hkeys : forall l k, map dataKey (lines_from k l) = l).
  { induction l as [|a t IH]; intros k; simpl; [reflexivity|].
    now rewrite IH. }
  assert (Hnth : forall i ln, nth_error (lines_from 0 (areas data)) i = Some ln ->
            stroke ln = nth (i mod List.length colors) colors "").
  { intros i ln. rewrite lines_from_nth. simpl.
    destruct (nth_error (areas data) i); [|discriminate].
    now intros [= <-]. }
  split; [apply Hkeys|]. split; [|split].
  - intros i ln Hln. rewrite (Hnth i ln Hln).
    change (List.length colors) with 4%nat.
    pose proof (Nat.mod_upper_bound i 4) as Hi.
    destruct (i mod 4) as [|[|[|[|?]]]]; try lia; reflexivity.
  - intros i j li lj Hi Hj. rewrite (Hnth i li Hi), (Hnth j lj Hj).
    apply color_cycle.
  - intros Hlen. apply NoDup_nth_error. intros i j Hi Hij.
    rewrite length_map in Hi.
    assert (Hli : (List.length (lines_from 0 (areas data))
                   = List.length (areas data))%nat).
    { rewrite <- (Hkeys (areas data) 0%nat) at 2. now rewrite length_map. }
    rewrite !nth_error_map in Hij.
    destruct (nth_error (lines_from 0 (areas data)) i) as [li|] eqn:Hei.
    2:{ apply nth_error_None in Hei. lia. }
    destruct (nth_error (lines_from 0 (areas data)) j) as [lj|] eqn:Hej;
      [|discriminate].
    assert (Hj : (j < List.length (lines_from 0 (areas data)))%nat).
    { apply nth_error_Some. congruence. }
    simpl in Hij. injection Hij as Hs.
    rewrite (Hnth i li Hei), (Hnth j lj Hej) in Hs.
    apply color_cycle in Hs.
    rewrite !Nat.mod_small in Hs by lia. exact Hs.
Qed.

Lemma line_colours_cycle_witness :
  NoDup (map stroke (lines spec_input)).
Proof.
  apply (proj2 (proj2 (proj2 (line_colours_cycle spec_input)))).
  vm_compute. lia.
Defined.

(** X3.  For records with numeric years whose areas are not stored under
    [year] or [__proto__]: every series has a point in some row, and every
    field of a row other than the year belongs to a series, so the lines
    drawn and the data handed to the chart agree. *)
Theorem series_match_row_fields :
  forall data : list obj,
    Forall numeric_year data ->
    Forall (fun d => area_key d <> "year") data ->
    Forall (fun d => area_key d <> "__proto__") data ->
    exists rows, comparison_chartData data = Some rows /\
      (forall a, In a (areas data) ->
         exists r, In r rows /\ has_own r (ToString a) = true) /\
      (forall r k, In r rows -> k <> "year" -> k <> "__proto__" ->
         has_own r k = true ->
         exists a, In a (areas data) /\ ToString a = k).
Proof.
  intros data Hnum Hyear Hproto.
  destruct (comparison_chartData_spec data Hnum Hyear)
    as (rows & Hrows & _ & _ & Hyears & Hfields).
  pose proof (areas_In data) as Hareas.
  exists rows. split; [exact Hrows|]. split.
  - intros a Ha. apply Hareas in Ha as (d & Hd & <-).
    rewrite Forall_forall in Hnum, Hyear, Hproto.
    destruct (Hnum d Hd) as [y Hy].
    assert (Hin : In y (map row_year rows)) by (apply Hyears; now exists d).
    apply in_map_iff in Hin as (r & Hr & Hrin).
    exists r. split; [exact Hrin|]. unfold has_own.
    fold (area_key d).
    rewrite (Hfields r (area_key d) Hrin (Hyear d Hd) (Hproto d Hd)), Hr.
    destruct (last_price data y (area_key d)) eqn:Hl; [reflexivity|].
    rewrite last_price_None in Hl. specialize (Hl d Hd).
    assert (contributes y (area_key d) d = true)
      by now apply contributes_spec.
    congruence.
  - intros r k Hr Hk Hp Hown. unfold has_own in Hown.
    rewrite (Hfields r k Hr Hk Hp) in Hown.
    destruct (last_price data (row_year r) k) as [v|] eqn:Hl; [|discriminate].
    apply last_price_Some in Hl as (d & Hd & Hc & _).
    apply contributes_spec in Hc as [_ Hc].
    exists (get d "area"). split; [|exact Hc].
    apply Hareas. now exists d.
Qed.

Lemma series_match_row_fields_witness :
  exists rows, comparison_chartData spec_input = Some rows /\
    (forall a, In a (areas spec_input) ->
       exists r, In r rows /\ has_own r (ToString a) = true) /\
    (forall r k, In r rows -> k <> "year" -> k <> "__proto__" ->
       has_own r k = true ->
       exists a, In a (areas spec_input) /\ ToString a = k).
Proof.
  apply (series_match_row_fields spec_input).
  - repeat constructor; eexists; reflexivity.
  - repeat constructor; discriminate.
  - repeat constructor; discriminate.
Defined.

(** *** The single-series fallback *)

Lemma find_number_not_year (year : value) (l : list value) :
  match
    find (fun v =>
            match v with
            | VNum n =>
                negb (match year with VNum y => (n =? y)%Z | _ => false end)
            | _ => false
            end) l
  with
  | Some v => exists n, v = VNum n /\ In v l /\ year <> VNum n
  | None => True
  end.
Proof.
  destruct (find _ l) as [v|] eqn:Hf; [|exact I].
  apply find_some in Hf as [Hin Hv].
  destruct v; try discriminate. exists n. split; [reflexivity|].
  split; [exact Hin|]. intros ->.
  rewrite Z.eqb_refl in Hv. discriminate.
Qed.

(** X4.  The single-series chart has one point per record, in input order,
    each holding exactly the record's year and a price.  The price is
    never [null]; when the record has no usable [__price_computed__] it is
    either [undefined] or a number found among the record's values and
    different from the record's year. *)
Theorem single_series_points :
  forall data : list obj,
    map (fun p => get p "year") (single_chartData data)
      = map (fun d => get d "year") data /\
    Forall (fun p => keys p = ["year"; "price"]) (single_chartData data) /\
    Forall (fun p => get p "price" <> VNull) (single_chartData data) /\
    (forall d,
       fallback_price d = VUndefined \/
       exists n, fallback_price d = VNum n /\ In (VNum n) (values d) /\
                 get d "year" <> VNum n) /\
    (forall d, In d data -> nullish (get d "__price_computed__") = true ->
       In [("year", get d "year"); ("price", fallback_price d)]
          (single_chartData data)).
Proof.
  intros data.
  assert (Hfb : forall d,
            fallback_price d = VUndefined \/
            exists n, fallback_price d = VNum n /\ In (VNum n) (values d) /\
                      get d "year" <> VNum n).
  { intros d. unfold fallback_price. cbv zeta.
    pose proof (find_number_not_year (get d "year") (values d)) as H.
    destruct (find _ (values d)) as [v|]; [|now left].
    destruct H as (n & -> & Hin & Hne). right. now exists n. }
  unfold single_chartData. split; [|split; [|split; [|split]]].
  - rewrite map_map. apply map_ext. intros d. reflexivity.
  - apply Forall_map. apply Forall_forall. intros d _. reflexivity.
  - apply Forall_map. apply Forall_forall. intros d _.
    unfold single_point, get. cbn [own_get].
    destruct (String.eqb_spec "year" "price"); [discriminate|].
    rewrite String.eqb_refl.
    fold (get d "__price_computed__").
    destruct (nullish (get d "__price_computed__")) eqn:Hn; simpl.
    + destruct (Hfb d) as [->|(m & -> & _)]; discriminate.
    + intros Heq. rewrite Heq in Hn. discriminate.
  - exact Hfb.
  - intros d Hd Hn. apply in_map_iff. exists d. split; [|exact Hd].
    unfold single_point. cbv zeta. now rewrite Hn.
Qed.

(** *** The order of the records *)

Lemma strictly_sorted_unique (l1 : list Z) : forall l2,
  StronglySorted Z.lt l1 -> StronglySorted Z.lt l2 ->
  (forall x, In x l1 <-> In x l2) -> l1 = l2.
Proof.
  induction l1 as [|a t1 IH]; intros l2 H1 H2 Hin.
  - destruct l2 as [|b t2]; [reflexivity|].
    destruct (proj2 (Hin b) (or_introl eq_refl)).
  - destruct l2 as [|b t2]; [destruct (proj1 (Hin a) (or_introl eq_refl))|].
    inversion H1 as [|? ? Hs1 Hf1]; subst.
    inversion H2 as [|? ? Hs2 Hf2]; subst.
    rewrite Forall_forall in Hf1, Hf2.
    assert (a = b).
    { destruct (proj1 (Hin a) (or_introl eq_refl)) as [Hab|Hab]; [congruence|].
      destruct (proj2 (Hin b) (or_introl eq_refl)) as [Hba|Hba]; [congruence|].
      specialize (Hf1 b Hba). specialize (Hf2 a Hab). lia. }
    subst b. f_equal. apply IH; try assumption.
    intros x. split; intros Hx.
    + destruct (proj1 (Hin x) (or_intror Hx)) as [<-|H]; [|exact H].
      specialize (Hf1 a Hx). lia.
    + destruct (proj2 (Hin x) (or_intror Hx)) as [<-|H]; [|exact H].
      specialize (Hf2 a Hx). lia.
Qed.

Lemma NoDup_map_injective {A B : Type} (f : A -> B) (l : list A) x y :
  NoDup (map f l) -> In x l -> In y l -> f x = f y -> x = y.
Proof.
  induction l as [|a t IH]; simpl; [contradiction|].
  intros Hnd Hx Hy Hf. inversion Hnd as [|? ? Hnotin Hnd']; subst.
  destruct Hx as [<-|Hx], Hy as [<-|Hy]; try reflexivity.
  - elim Hnotin. rewrite Hf. now apply in_map.
  - elim Hnotin. rewrite <- Hf. now apply in_map.
  - now apply IH.
Qed.

Lemma last_price_permutation data data' y k :
  Permutation data data' -> NoDup (map cell_of data) ->
  last_price data y k = last_price data' y k.
Proof.
  intros Hperm Hnd.
  destruct (last_price data y k) as [v|] eqn:Hl.
  - apply last_price_Some in Hl as (d & Hd & Hc & ->).
    destruct (last_price data' y k) as [v'|] eqn:Hl'.
    + apply last_price_Some in Hl' as (d' & Hd' & Hc' & ->).
      apply (Permutation_in _ (Permutation_sym Hperm)) in Hd'.
      apply contributes_spec in Hc as [Hy Ha].
      apply contributes_spec in Hc' as [Hy' Ha'].
      assert (d = d'); [|now subst].
      apply (NoDup_map_injective cell_of data); try assumption.
      unfold cell_of. congruence.
    + rewrite last_price_None in Hl'.
      rewrite (Hl' d (Permutation_in _ Hperm Hd)) in Hc. discriminate.
  - symmetry. apply last_price_None. intros d Hd.
    rewrite last_price_None in Hl. apply Hl.
    now apply (Permutation_in _ (Permutation_sym Hperm)).
Qed.

(** X16.  The comparison chart does not depend on the order of the
    records: for records with numeric years, no area stored under [year],
    and no two records of the same year and area, reordering the input
    gives rows of the same years in the same order, holding the same value
    under every name (the fields of a row may be listed in another
    order). *)
Theorem comparison_rows_ignore_record_order :
  forall data data' : list obj,
    Permutation data data' ->
    NoDup (map cell_of data) ->
    Forall numeric_year data ->
    Forall (fun d => area_key d <> "year") data ->
    exists rows rows',
      comparison_chartData data = Some rows /\
      comparison_chartData data' = Some rows' /\
      map (fun r => get r "year") rows = map (fun r => get r "year") rows' /\
      (forall r r' k,
         In r rows -> In r' rows' -> get r "year" = get r' "year" ->
         k <> "__proto__" -> own_get r k = own_get r' k).
Proof.
  intros data data' Hperm Hnd Hnum Harea.
  assert (Hnum' : Forall numeric_year data').
  { rewrite Forall_forall in Hnum |- *. intros d Hd. apply Hnum.
    now apply (Permutation_in _ (Permutation_sym Hperm)). }
  assert (Harea' : Forall (fun d => area_key d <> "year") data').
  { rewrite Forall_forall in Harea |- *. intros d Hd. apply Harea.
    now apply (Permutation_in _ (Permutation_sym Hperm)). }
  destruct (comparison_chartData_spec data Hnum Harea)
    as (rows & Hrows & Hny & Hsorted & Hyears & Hfields).
  destruct (comparison_chartData_spec data' Hnum' Harea')
    as (rows' & Hrows' & Hny' & Hsorted' & Hyears' & Hfields').
  exists rows, rows'. split; [exact Hrows|]. split; [exact Hrows'|].
  assert (Hget : forall l, Forall numeric_year l ->
            map (fun r => get r "year") l = map VNum (map row_year l)).
  { intros l Hl. rewrite map_map. apply map_ext_in. intros r Hr.
    rewrite Forall_forall in Hl. destruct (Hl r Hr) as [y Hy].
    unfold row_year. now rewrite Hy. }
  split.
  - rewrite (Hget rows Hny), (Hget rows' Hny'). f_equal.
    apply strictly_sorted_unique; try assumption.
    intros y. rewrite Hyears, Hyears'. split; intros (d & Hd & Hy);
      exists d; split; try exact Hy.
    + now apply (Permutation_in _ Hperm).
    + now apply (Permutation_in _ (Permutation_sym Hperm)).
  - intros r r' k Hr Hr' Hyear Hk.
    rewrite Forall_forall in Hny, Hny'.
    destruct (Hny r Hr) as [y Hy]. destruct (Hny' r' Hr') as [y' Hy'].
    destruct (String.eqb_spec k "year") as [->|Hky].
    + unfold get in Hy, Hy', Hyear.
      destruct (own_get r "year"), (own_get r' "year"); congruence.
    + rewrite (Hfields r k Hr Hky Hk), (Hfields' r' k Hr' Hky Hk).
      unfold row_year. rewrite <- Hyear, Hy.
      now apply last_price_permutation.
Qed.

Lemma comparison_rows_ignore_record_order_witness :
  exists rows rows',
    comparison_chartData spec_input = Some rows /\
    comparison_chartData (rev spec_input) = Some rows' /\
    map (fun r => get r "year") rows = map (fun r => get r "year") rows' /\
    (forall r r' k,
       In r rows -> In r' rows' -> get r "year" = get r' "year" ->
       k <> "__proto__" -> own_get r k = own_get r' k).
Proof.
  apply (comparison_rows_ignore_record_order spec_input (rev spec_input)).
  - apply Permutation_rev.
  - repeat (constructor; [simpl; intuition discriminate|]). constructor.
  - repeat constructor; eexists; reflexivity.
  - repeat constructor; discriminate.
Defined.

End PriceChartFacts.

(** ** ChatInput.js: submitting *)

Module ChatInputFacts.
Import ChatInput.

(** *** Trimming *)

Lemma trimStart_split s :
  exists pre, s = pre ++ trimStart s /\ forallb is_white_space pre = true.
Proof.
  induction s as [|c t (pre & Heq & Hws)]; simpl.
  - now exists [].
  - destruct (is_white_space c) eqn:Hc.
    + exists (c :: pre). simpl. rewrite Hc, Hws. split; [congruence|reflexivity].
    + now exists [].
Qed.

Lemma trimStart_head s :
  match trimStart s with
  | c :: _ => is_white_space c = false
  | [] => True
  end.
Proof.
  induction s as [|c t IH]; simpl; [exact I|].
  destruct (is_white_space c) eqn:Hc; [exact IH | exact Hc].
Qed.

Lemma trimStart_white s :
  forallb is_white_space s = true <-> trimStart s = [].
Proof.
  induction s as [|c t IH]; simpl; [tauto|].
  destruct (is_white_space c); simpl; [exact IH|].
  split; discriminate.
Qed.

Lemma trimEnd_split s :
  exists post, s = trimEnd s ++ post /\ forallb is_white_space post = true.
Proof.
  unfold trimEnd. destruct (trimStart_split (rev s)) as (pre & Heq & Hws).
  exists (rev pre). split.
  - rewrite <- rev_app_distr, <- Heq. symmetry. apply rev_involutive.
  - rewrite forallb_forall in Hws |- *. intros c Hc. apply Hws.
    now apply in_rev.
Qed.

Lemma trim_split s :
  exists pre post, s = pre ++ trim s ++ post /\
    forallb is_white_space pre = true /\ forallb is_white_space post = true.
Proof.
  destruct (trimStart_split s) as (pre & Heq & Hpre).
  destruct (trimEnd_split (trimStart s)) as (post & Heq' & Hpost).
  exists pre, post. unfold trim. now rewrite <- Heq'.
Qed.

Lemma trim_white s : forallb is_white_space s = true <-> trim s = [].
Proof.
  split.
  - intros H. apply trimStart_white in H. unfold trim. now rewrite H.
  - intros H. destruct (trim_split s) as (pre & post & Heq & Hpre & Hpost).
    rewrite Heq, H. simpl. rewrite forallb_app. now rewrite Hpre, Hpost.
Qed.

Lemma trim_ends s :
  match trim s with
  | c :: _ => is_white_space c = false
  | [] => True
  end /\
  match rev (trim s) with
  | c :: _ => is_white_space c = false
  | [] => True
  end.
Proof.
  split.
  - unfold trim. pose proof (trimStart_head s) as Hh.
    destruct (trimEnd_split (trimStart s)) as (post & Heq & _).
    destruct (trimEnd (trimStart s)) as [|c t]; [exact I|].
    rewrite Heq in Hh. exact Hh.
  - unfold trim, trimEnd. rewrite rev_involutive. apply trimStart_head.
Qed.

(** *** Submitting *)

(** C4.  For every field value and every callback: if the trimmed value is
    empty the field and the parent's world are left as they are (the
    callback is not run); otherwise the parent's world is the callback
    applied once to the trimmed value, and the field is empty.  The
    trimmed value is the field value without its leading and trailing
    white space, and it is empty exactly for white-space-only values.
    Submitting [Wakad] records the single call [Wakad] and clears the
    field. *)
Theorem submit_contract :
  forall (W : Type) (callback : jsstring -> W -> W) (value : jsstring) (w : W),
    (trim value = [] -> submit (Some callback) value w = (value, w)) /\
    (trim value <> [] ->
     submit (Some callback) value w = ([], callback (trim value) w)) /\
    (exists pre post, value = pre ++ trim value ++ post /\
       forallb is_white_space pre = true /\
       forallb is_white_space post = true) /\
    match trim value with
    | c :: _ => is_white_space c = false
    | [] => True
    end /\
    match rev (trim value) with
    | c :: _ => is_white_space c = false
    | [] => True
    end /\
    (forallb is_white_space value = true <-> trim value = []) /\
    submit (Some (fun q calls => calls ++ [q])) (lit "Wakad") []
      = ([], [lit "Wakad"]).
Proof.
  intros W callback value w. unfold submit.
  split; [intros ->; reflexivity|].
  split; [destruct (trim value); [congruence | reflexivity]|].
  split; [apply trim_split|].
  split; [apply trim_ends|].
  split; [apply trim_ends|].
  split; [apply trim_white | reflexivity].
Qed.

(** Both triggers run [submit] when the button is enabled. *)
Lemma handle_submit {W : Type} (onQuery : option (jsstring -> W -> W))
  (loading : bool) (value : jsstring) (w : W) :
  handle onQuery loading (KeyDown "Enter") value w = submit onQuery value w /\
  handle onQuery false Click value w = submit onQuery value w.
Proof.
  unfold handle, button_disabled, submit. simpl.
  split; [reflexivity|]. now destruct (is_empty (trim value)).
Qed.

(** C4 at a value with surrounding blanks. *)
Lemma submit_contract_witness :
  submit (Some (fun q calls => calls ++ [q])) (lit "  Wakad ") []
    = ([], [lit "Wakad"]).
Proof.
  apply (proj1 (proj2 (submit_contract (list jsstring)
                         (fun q calls => calls ++ [q]) (lit "  Wakad ") []))).
  vm_compute. discriminate.
Defined.

(** *** Repeated and combined events *)

Lemma trimStart_fixed s :
  match s with
  | c :: _ => is_white_space c = false
  | [] => True
  end -> trimStart s = s.
Proof. destruct s as [|c t]; simpl; [reflexivity | now intros ->]. Qed.

Lemma trim_idempotent s : trim (trim s) = trim s.
Proof.
  destruct (trim_ends s) as [Hhead Hlast].
  unfold trim at 1. rewrite (trimStart_fixed _ Hhead).
  unfold trimEnd. rewrite (trimStart_fixed _ Hlast).
  apply rev_involutive.
Qed.

(** X5.  Submitting again right after a submission changes nothing: the
    field was cleared (or the submission was ignored), so the callback is
    not run a second time. *)
Theorem submit_twice :
  forall (W : Type) (onQuery : option (jsstring -> W -> W))
         (value : jsstring) (w : W),
    submit onQuery (fst (submit onQuery value w)) (snd (submit onQuery value w))
      = submit onQuery value w.
Proof.
  intros W onQuery value w. unfold submit at 2 3 4.
  destruct (is_empty (trim value)) eqn:He; cbn [fst snd].
  - unfold submit. now rewrite He.
  - reflexivity.
Qed.

(** X6.  While the page is not loading, the button and the Enter key do
    the same for every field value: the button is disabled exactly when
    the value is empty or white space only, and that is exactly when
    [submit] does nothing.  Any other key leaves the field and the parent
    as they are. *)
Theorem click_is_enter :
  forall (W : Type) (onQuery : option (jsstring -> W -> W))
         (value : jsstring) (w : W),
    handle onQuery false Click value w
      = handle onQuery false (KeyDown "Enter") value w /\
    (button_disabled false value = true <->
     forallb is_white_space value = true) /\
    (button_disabled false value = true <->
     submit (Some record_query) value [] = (value, [])) /\
    (forall loading key, key <> "Enter" ->
       handle onQuery loading (KeyDown key) value w = (value, w)).
Proof.
  intros W onQuery value w. split; [|split; [|split]].
  - unfold handle, button_disabled, submit. simpl.
    now destruct (is_empty (trim value)).
  - unfold button_disabled. simpl. rewrite trim_white.
    destruct (trim value); simpl; split; congruence.
  - unfold button_disabled, submit. simpl.
    destruct (trim value) eqn:Ht; simpl; split; try congruence.
    unfold record_query. simpl. intros H. injection H as _ H. discriminate H.
  - intros loading key Hkey. unfold handle.
    destruct (String.eqb_spec key "Enter"); [contradiction | reflexivity].
Qed.

Lemma click_is_enter_witness :
  handle (Some record_query) true (KeyDown "Tab") (lit "Wakad") []
    = (lit "Wakad", []).
Proof.
  apply (proj2 (proj2 (proj2 (click_is_enter (list jsstring)
                                (Some record_query) (lit "Wakad") [])))).
  discriminate.
Defined.

Lemma handle_records loading e value calls :
  Forall well_formed_query calls ->
  Forall well_formed_query
    (snd (handle (Some record_query) loading e value calls)).
Proof.
  intros Hcalls.
  assert (Hsub : Forall well_formed_query
                   (snd (submit (Some record_query) value calls))).
  { unfold submit. destruct (is_empty (trim value)) eqn:He; [exact Hcalls|].
    cbn [snd]. unfold record_query. apply Forall_app. split; [exact Hcalls|].
    constructor; [|constructor]. split; [|apply trim_idempotent].
    intros H. rewrite H in He. discriminate. }
  unfold handle. destruct e as [text|key|].
  - exact Hcalls.
  - destruct (key =? "Enter"); [exact Hsub | exact Hcalls].
  - destruct (button_disabled loading value); [exact Hcalls | exact Hsub].
Qed.

(** X7.  Whatever is typed, pressed and clicked, and whenever the parent
    toggles [loading], every query handed to the callback is non-empty and
    has no leading or trailing white space. *)
Theorem queries_are_trimmed :
  forall (evs : list (bool * event)) (value : jsstring),
    Forall well_formed_query
      (snd (handle_all (Some record_query) evs value [])).
Proof.
  intros evs value.
  assert (H : forall evs value calls,
            Forall well_formed_query calls ->
            Forall well_formed_query
              (snd (handle_all (Some record_query) evs value calls))).
  { clear. induction evs as [|[loading e] rest IH]; intros value calls Hc;
      simpl; [exact Hc|].
    pose proof (handle_records loading e value calls Hc) as Hstep.
    destruct (handle (Some record_query) loading e value calls) as [v' c'].
    now apply IH. }
  apply H. constructor.
Qed.

End ChatInputFacts.

(** ** Reading a rendered tree *)

Module ReactFacts.
Import React.

Lemma flat_map_select_leaves (tag : string) (mk : string -> node)
  (l : list string) :
  (forall s, select tag (mk s) = [mk s]) ->
  flat_map (select tag) (map mk l) = map mk l.
Proof.
  intros H. induction l as [|s t IH]; simpl; [reflexivity|].
  now rewrite H, IH.
Qed.

Lemma flat_map_select_none {A : Type} (tag : string) (mk : A -> node)
  (l : list A) :
  (forall a, select tag (mk a) = []) ->
  flat_map (select tag) (map mk l) = [].
Proof.
  intros H. induction l as [|s t IH]; simpl; [reflexivity|].
  now rewrite H, IH.
Qed.

End ReactFacts.

(** ** DataTable.js: columns, headers, cells *)

Module DataTableFacts.
Import JS JSFacts React ReactFacts DataTable.


Lemma select_tr_body_rows cols rows :
  flat_map (select "tr") (map (body_row cols) rows) = map (body_row cols) rows.
Proof.
  induction rows as [|r t IH]; simpl; [reflexivity|]. rewrite IH.
  now rewrite (flat_map_select_none "tr" (td r)).
Qed.




(** The spec's example: a first row owning the four names yields the four
    columns in the fixed order. *)
Example four_columns (rest : list obj) :
  columns ([("year", VNum 2021); ("city", VStr "Pune");
            ("__price_computed__", VNum 5000); ("final location", VStr "Wakad")]
           :: rest)
  = whitelist.
Proof. reflexivity. Qed.

(** *** Labels *)

Lemma upper_char_clean (c : ascii) :
  upper_char (if (c =? "_")%char then " "%char else c) <> "_"%char /\
  is_lower (upper_char (if (c =? "_")%char then " "%char else c)) = false.
Proof.
  destruct c as [[] [] [] [] [] [] [] []]; vm_compute;
    split; (discriminate || reflexivity).
Qed.

Lemma label_chars_clean (s : string) (c : ascii) :
  In c (list_ascii_of_string (toUpperCase (underscores_to_spaces s))) ->
  c <> "_"%char /\ is_lower c = false.
Proof.
  induction s as [|a t IH]; simpl; [contradiction|].
  intros [<-|Hin]; [apply upper_char_clean | now apply IH].
Qed.

Lemma strip_double_underscore_length (s : string) :
  (String.length (strip_double_underscore s) <= String.length s)%nat.
Proof.
  assert (H : forall n s, (String.length s <= n)%nat ->
            (String.length (strip_double_underscore s) <= String.length s)%nat).
  { clear. induction n as [|n IH]; intros s Hlen.
    - destruct s; simpl in *; lia.
    - destruct s as [|c [|c' t']]; simpl in *; try lia.
      destruct ((c =? "_") && (c' =? "_"))%char.
      + assert (String.length t' <= n)%nat by lia.
        specialize (IH t' H). lia.
      + assert (String.length (String c' t') <= n)%nat by (simpl; lia).
        specialize (IH (String c' t') H). simpl in IH |- *. lia. }
  now apply (H (String.length s)).
Qed.

Lemma map_char_length (f : ascii -> ascii) (g : string -> string) (s : string) :
  (forall a t, g (String a t) = String (f a) (g t)) -> g "" = "" ->
  String.length (g s) = String.length s.
Proof.
  intros Hcons Hnil. induction s as [|a t IH]; [now rewrite Hnil|].
  rewrite Hcons. simpl. now rewrite IH.
Qed.

(** X8.  For every ASCII column key, the header label contains no
    underscore and no lower-case letter, and is never longer than the
    key. *)
Theorem header_label_clean :
  forall (k : string),
    is_ascii_string k = true ->
    (forall c, In c (list_ascii_of_string (header_label k)) ->
       c <> "_"%char /\ is_lower c = false) /\
    (String.length (header_label k) <= String.length k)%nat.
Proof.
  intros k _. split.
  - intros c. unfold header_label. apply label_chars_clean.
  - unfold header_label.
    rewrite (map_char_length upper_char toUpperCase) by reflexivity.
    rewrite (map_char_length (fun c => if (c =? "_")%char then " "%char else c)
               underscores_to_spaces) by reflexivity.
    apply strip_double_underscore_length.
Qed.

Lemma header_label_clean_witness :
  (forall c, In c (list_ascii_of_string (header_label "__price_computed__")) ->
     c <> "_"%char /\ is_lower c = false) /\
  (String.length (header_label "__price_computed__")
   <= String.length "__price_computed__")%nat.
Proof.
  apply (header_label_clean "__price_computed__"). reflexivity.
Defined.

(** *** Fields outside the whitelist *)

Lemma cell_same_whitelisted r r' k :
  same_whitelisted r r' -> In k whitelist -> cell r k = cell r' k.
Proof.
  intros Hsame Hk. unfold cell, get. now rewrite (Hsame k Hk).
Qed.

Lemma body_row_same_whitelisted cols r r' :
  same_whitelisted r r' -> (forall k, In k cols -> In k whitelist) ->
  body_row cols r = body_row cols r'.
Proof.
  intros Hsame Hcols. unfold body_row. f_equal.
  apply map_ext_in. intros k Hk. unfold td.
  now rewrite (cell_same_whitelisted r r' k Hsame (Hcols k Hk)).
Qed.

Lemma body_rows_same_whitelisted cols rows rows' :
  Forall2 same_whitelisted rows rows' ->
  (forall k, In k cols -> In k whitelist) ->
  map (body_row cols) rows = map (body_row cols) rows'.
Proof.
  intros Hall Hcols.
  induction Hall as [|r r' l l' Hr Hl IH]; simpl; [reflexivity|].
  now rewrite (body_row_same_whitelisted cols r r' Hr Hcols), IH.
Qed.

(** X9.  The table shows nothing but the whitelisted fields: two row
    lists whose rows agree, one by one, on the four whitelisted names give
    the same table, whatever other fields they hold and in whatever order
    the fields come. *)
Theorem table_ignores_other_fields :
  forall rows rows' : list obj,
    Forall2 same_whitelisted rows rows' ->
    DataTable rows = DataTable rows'.
Proof.
  intros rows rows' Hall.
  assert (Hcols : columns rows = columns rows').
  { destruct Hall as [|r0 r0' t t' H0 Ht]; [reflexivity|].
    unfold columns. apply filter_ext_in. intros k Hk.
    unfold has_own. now rewrite (H0 k Hk). }
  assert (Hsub : forall k, In k (columns rows) -> In k whitelist).
  { intros k Hk. destruct rows; [contradiction|].
    unfold columns in Hk. now apply filter_In in Hk. }
  pose proof (body_rows_same_whitelisted _ _ _ Hall Hsub) as Hbody.
  unfold DataTable. cbv zeta. rewrite <- Hcols, <- Hbody.
  destruct Hall; reflexivity.
Qed.

Lemma table_ignores_other_fields_witness :
  DataTable [[("year", VNum 2021); ("city", VStr "Pune"); ("units", VNum 7)]]
  = DataTable [[("city", VStr "Pune"); ("year", VNum 2021)]].
Proof.
  apply table_ignores_other_fields.
  constructor; [|constructor].
  intros k [<-|[<-|[<-|[<-|[]]]]]; reflexivity.
Defined.

(** X10.  The component renders nothing exactly for an empty row list.
    Otherwise the table has at most four columns, none repeated, and one
    body row per input row, also when the first row owns no whitelisted
    name and the table has no column at all. *)
Theorem table_shape :
  forall rows : list obj,
    (DataTable rows = None <-> rows = []) /\
    (List.length (columns rows) <= 4)%nat /\
    NoDup (columns rows) /\
    (forall tree, DataTable rows = Some tree ->
       List.length (select "th" tree) = List.length (columns rows) /\
       List.length (flat_map (select "tr") (select "tbody" tree))
         = List.length rows).
Proof.
  intros rows. split; [|split; [|split]].
  - destruct rows; simpl; split; congruence.
  - destruct rows as [|r0 t]; simpl; [lia|].
    destruct (has_own r0 "final location"), (has_own r0 "year"),
      (has_own r0 "city"), (has_own r0 "__price_computed__"); simpl; lia.
  - destruct rows as [|r0 t]; [constructor|].
    unfold columns. apply NoDup_filter. unfold whitelist.
    repeat (constructor; [simpl; intuition discriminate|]). constructor.
  - intros tree Htree. destruct rows as [|r0 t]; [discriminate|].
    unfold DataTable in Htree. cbv zeta in Htree.
    apply (f_equal (fun o => match o with Some x => x | None => tree end))
      in Htree.
    cbv beta iota in Htree. subst tree.
    set (rows := r0 :: t). set (cols := columns rows).
    assert (Hth : forall r, select "th" (body_row cols r) = []).
    { intros r. unfold body_row. simpl.
      now apply (flat_map_select_none "th" (td r)). }
    assert (Htb : forall r, select "tbody" (body_row cols r) = []).
    { intros r. unfold body_row. simpl.
      now apply (flat_map_select_none "tbody" (td r)). }
    split.
    + cbn [select flat_map String.eqb Ascii.eqb Bool.eqb app].
      fold (flat_map (select "th")). fold rows.
      rewrite (flat_map_select_none "th" (body_row cols) rows Hth).
      rewrite (flat_map_select_leaves "th" th) by reflexivity.
      now rewrite !app_nil_r, length_map.
    + cbn [select flat_map String.eqb Ascii.eqb Bool.eqb app].
      fold (flat_map (select "tbody")). fold (flat_map (select "tr")).
      fold rows.
      rewrite (flat_map_select_none "tbody" (body_row cols) rows Htb).
      rewrite (flat_map_select_none "tbody" th) by reflexivity.
      cbn [flat_map select String.eqb Ascii.eqb Bool.eqb app].
      fold (flat_map (select "tr")).
      now rewrite select_tr_body_rows, !app_nil_r, length_map.
Qed.

Lemma table_shape_witness :
  exists tree,
    DataTable [[("units", VNum 7)]] = Some tree /\
    List.length (select "th" tree)
      = List.length (columns [[("units", VNum 7)]]) /\
    List.length (flat_map (select "tr") (select "tbody" tree))
      = List.length [[("units", VNum 7)]].
Proof.
  eexists. split; [reflexivity|].
  apply (proj2 (proj2 (proj2 (table_shape [[("units", VNum 7)]])))).
  reflexivity.
Defined.

End DataTableFacts.

(** ** SummaryBox.js: badges and areas *)

Module SummaryBoxFacts.
Import JS React ReactFacts SummaryBox.

Lemma source_badge_secondary (c : string) :
  has_attr "bg" "secondary" (source_badge c) = true.
Proof.
  unfold has_attr, source_badge, attr. cbn [own_get].
  destruct (String.eqb_spec "key" "bg"); [discriminate | reflexivity].
Qed.

Lemma badges_sources (cols : list string) :
  filter (has_attr "bg" "secondary")
    (flat_map (select "Badge") (map source_badge cols))
  = map source_badge cols.
Proof.
  induction cols as [|c t IH]; [reflexivity|].
  cbn [map flat_map].
  change (select "Badge" (source_badge c)) with [source_badge c].
  cbn [app filter]. now rewrite source_badge_secondary, IH.
Qed.

Lemma badges_areas_block (m : meta) :
  flat_map (select "Badge") (areas_block m) = [].
Proof. unfold areas_block. now destruct (areas m). Qed.

Lemma badges_query_type (m : option meta) :
  filter (has_attr "bg" "secondary")
    (flat_map (select "Badge") (query_type_badge m)) = [].
Proof.
  destruct m as [m|]; simpl; [|reflexivity].
  destruct (query_type m) as [t|]; [|reflexivity].
  now destruct (t =? "").
Qed.

Lemma In_subtrees_child (n : node) tag attrs (cs : list node) (c : node) :
  In c cs -> In n (subtrees c) -> In n (subtrees (Elem tag attrs cs)).
Proof.
  intros Hc Hn. simpl. right. apply in_flat_map. now exists c.
Qed.

(** C8 (as amended).  Every data-source identifier of the metadata is shown
    as a badge of its own, in order, and no other badge of that kind is
    shown.  When the metadata carries a non-empty list of data sources and
    a list of area names, the comma-joined names are shown after the label
    [Areas analyzed:]; when the list of data sources is absent or empty,
    the areas are not shown at all: the box is the same whatever areas
    the metadata carries, and in particular has no such label. *)
Theorem summary_sources_and_areas :
  forall (summary : string) (m : meta),
    map text_content (badges "secondary" (SummaryBox summary (Some m)))
      = match used_price_columns m with
        | Some cols => cols
        | None => []
        end /\
    (forall cols names,
       used_price_columns m = Some cols -> cols <> [] ->
       areas m = Some names ->
       In (Elem "small" [("className", "mt-2 d-block")]
             [areas_label; Text " "; Text (join ", " names)])
          (subtrees (SummaryBox summary (Some m)))) /\
    ((used_price_columns m = None \/ used_price_columns m = Some []) ->
     ~ In areas_label (subtrees (SummaryBox summary (Some m)))) /\
    ((used_price_columns m = None \/ used_price_columns m = Some []) ->
     forall a,
       SummaryBox summary (Some m)
       = SummaryBox summary
           (Some {| used_price_columns := used_price_columns m;
                    query_type := query_type m;
                    areas := a;
                    area := area m |})).
Proof.
  intros summary m. split; [|split; [|split]].
  - unfold badges, SummaryBox.
    cbn [select flat_map String.eqb Ascii.eqb Bool.eqb app].
    fold (flat_map (select "Badge")).
    rewrite !app_nil_r, !filter_app, badges_query_type.
    unfold sources_block. destruct (used_price_columns m) as [[|c cs]|];
      try reflexivity.
    cbn [select flat_map String.eqb Ascii.eqb Bool.eqb app filter].
    fold (flat_map (select "Badge")).
    rewrite !app_nil_r, flat_map_app, badges_areas_block, app_nil_r.
    change (select "Badge" (source_badge c) ++
            flat_map (select "Badge") (map source_badge cs))
      with (flat_map (select "Badge") (map source_badge (c :: cs))).
    change (filter (has_attr "bg" "secondary") (select "Badge" provider_badge))
      with (@nil node).
    cbn [app]. rewrite (badges_sources (c :: cs)), map_map. apply map_id.
  - intros cols names Hcols Hne Hareas.
    unfold SummaryBox, sources_block. rewrite Hcols.
    destruct cols as [|c cs]; [now elim Hne|].
    eapply In_subtrees_child; [now left|].
    eapply In_subtrees_child; [right; right; now left|].
    eapply In_subtrees_child.
    + right. apply in_or_app. right. unfold areas_block. rewrite Hareas.
      right. now left.
    + now left.
  - intros Hnone. unfold SummaryBox.
    replace (sources_block m) with (@nil node)
      by (unfold sources_block; destruct Hnone as [-> | ->]; reflexivity).
    unfold query_type_badge.
    destruct (query_type m) as [t|]; [destruct (t =? "")|];
      simpl; unfold areas_label; intuition discriminate.
  - intros Hnone a. unfold SummaryBox, sources_block. cbn [used_price_columns
      query_type].
    destruct Hnone as [-> | ->]; reflexivity.
Qed.

(** The amended statement at a response naming two sources and two areas. *)
Lemma summary_sources_and_areas_witness :
  In (Elem "small" [("className", "mt-2 d-block")]
        [areas_label; Text " "; Text "Wakad, Akurdi"])
     (subtrees
        (SummaryBox "Prices rose."
           (Some {| used_price_columns := Some ["flat rate"; "plot rate"];
                    query_type := Some "comparison";
                    areas := Some ["Wakad"; "Akurdi"];
                    area := None |}))).
Proof.
  apply (proj1 (proj2 (summary_sources_and_areas "Prices rose."
           {| used_price_columns := Some ["flat rate"; "plot rate"];
              query_type := Some "comparison";
              areas := Some ["Wakad"; "Akurdi"];
              area := None |}))
           ["flat rate"; "plot rate"] ["Wakad"; "Akurdi"]).
  - reflexivity.
  - discriminate.
  - reflexivity.
Defined.

(** C8 as stated fails: the metadata carries the analyzed areas but no data
    sources, and the joined names appear nowhere in the rendered box. *)
Lemma areas_hidden_without_sources :
  areas {| used_price_columns := None; query_type := Some "comparison";
           areas := Some ["Wakad"; "Akurdi"]; area := None |}
    = Some ["Wakad"; "Akurdi"] /\
  forallb
    (fun n => match n with
              | Text s => negb (s =? "Wakad, Akurdi")
              | Elem _ _ _ => true
              end)
    (subtrees
       (SummaryBox "Prices rose."
          (Some {| used_price_columns := None; query_type := Some "comparison";
                   areas := Some ["Wakad"; "Akurdi"]; area := None |})))
    = true /\
  text_content
    (SummaryBox "Prices rose."
       (Some {| used_price_columns := None; query_type := Some "comparison";
                areas := Some ["Wakad"; "Akurdi"]; area := None |}))
    = "AI AnalysisGroq AIcomparisonPrices rose.".
Proof. repeat split. Qed.

(** *** Counting badges *)

Lemma select_badge_sources (cols : list string) :
  flat_map (select "Badge") (map source_badge cols) = map source_badge cols.
Proof. now apply flat_map_select_leaves. Qed.

(** X11.  With or without metadata the box shows the provider badge, one
    badge for the query type when that is a non-empty string, and one
    badge per data source; it shows no other badge. *)
Theorem badge_count :
  forall (summary : string) (m : option meta),
    List.length (select "Badge" (SummaryBox summary m))
      = (1 + (if has_query_type m then 1 else 0)
           + List.length (sources m))%nat /\
    hd_error (select "Badge" (SummaryBox summary m)) = Some provider_badge.
Proof.
  intros summary m. unfold SummaryBox.
  cbn [select flat_map String.eqb Ascii.eqb Bool.eqb app].
  fold (flat_map (select "Badge")).
  split; [|reflexivity].
  rewrite !app_nil_r. cbn [List.length]. rewrite !length_app.
  assert (Hq : List.length (flat_map (select "Badge") (query_type_badge m))
               = if has_query_type m then 1%nat else 0%nat).
  { unfold query_type_badge, has_query_type.
    destruct m as [m|]; [|reflexivity].
    destruct (query_type m) as [t|]; [|reflexivity].
    now destruct (t =? ""). }
  assert (Hs : List.length
                 (flat_map (select "Badge")
                    match m with
                    | Some m' => sources_block m'
                    | None => []
                    end)
               = List.length (sources m)).
  { unfold sources, sources_block. destruct m as [m|]; [|reflexivity].
    destruct (used_price_columns m) as [[|c cs]|]; try reflexivity.
    cbn [select flat_map String.eqb Ascii.eqb Bool.eqb app].
    fold (flat_map (select "Badge")).
    rewrite !app_nil_r, flat_map_app, badges_areas_block, app_nil_r.
    change (select "Badge" (source_badge c) ++
            flat_map (select "Badge") (map source_badge cs))
      with (flat_map (select "Badge") (map source_badge (c :: cs))).
    now rewrite select_badge_sources, length_map. }
  rewrite Hq, Hs. reflexivity.
Qed.

End SummaryBoxFacts.

(** ** App.js: the request life cycle *)

Module AppFacts.
Import JS App.

Section EngineFacts.
(** The engine's [TypeError] for reading a property of [null]. *)
Variable tyerr : js_error.

Lemma catch_block_message err st :
  catch_block err st = setError (failure_message err) st.
Proof.
  unfold catch_block, failure_message, or_else. simpl.
  now destruct (message err =? "").
Qed.

(** The continuation writes one cell and clears the loading flag. *)
Lemma handleQuery_settle_writes o st :
  handleQuery_settle tyerr o st =
  match settle_writes tyerr o with
  | inl json => {| data := json; loading := false; error := error st |}
  | inr msg => {| data := data st; loading := false; error := msg |}
  end.
Proof.
  unfold handleQuery_settle, try_block, settle_writes.
  destruct o as [err|status [json|err]]; try now rewrite catch_block_message.
  destruct (ok status); simpl; [reflexivity|].
  destruct (member_error tyerr json);
    [reflexivity | now rewrite catch_block_message].
Qed.

Lemma failure_message_nonempty err :
  truthy (failure_message err) = true /\ failure_message err <> VStr "".
Proof.
  unfold failure_message.
  destruct (String.eqb_spec (message err) "") as [_|Hne]; simpl.
  - split; [reflexivity | discriminate].
  - split; [|congruence].
    destruct (String.eqb_spec (message err) ""); [contradiction | reflexivity].
Qed.

Lemma run_reachable es : forall w w',
  reachable tyerr w -> run tyerr w es = Some w' -> reachable tyerr w'.
Proof.
  induction es as [|e rest IH]; simpl; intros w w' Hw Hrun.
  - now injection Hrun as <-.
  - destruct (enabled w e) eqn:He; [|discriminate].
    apply (IH (step tyerr w e)); [now constructor | exact Hrun].
Qed.

Lemma loading_invariant w :
  reachable tyerr w ->
  loading (ui w) = true -> data (ui w) = VNull /\ error (ui w) = VNull.
Proof.
  induction 1 as [|w e Hw IH He]; [discriminate|].
  destruct e as [area|i o|]; cbn [step ui].
  - now split.
  - rewrite handleQuery_settle_writes.
    destruct (settle_writes tyerr o); discriminate.
  - discriminate.
Qed.

Lemma or_else_truthy a b : truthy b = true -> truthy (or_else a b) = true.
Proof. unfold or_else. intros Hb. now destruct (truthy a) eqn:Ha. Qed.

Lemma settle_writes_truthy o msg :
  settle_writes tyerr o = inr msg -> truthy msg = true.
Proof.
  unfold settle_writes.
  destruct o as [err|status [json|err]];
    try (intros [= <-]; apply failure_message_nonempty).
  destruct (ok status); [discriminate|].
  destruct (member_error tyerr json); intros [= <-].
  - now apply or_else_truthy.
  - apply failure_message_nonempty.
Qed.

Lemma settle_writes_failed o :
  failed o = true -> exists msg, settle_writes tyerr o = inr msg.
Proof.
  unfold failed, settle_writes.
  destruct o as [err|status [json|err]]; try (intros _; now eexists).
  destruct (ok status); [discriminate|]. intros _.
  destruct (member_error tyerr json); now eexists.
Qed.

Lemma handleQuery_failure o st msg :
  settle_writes tyerr o = inr msg -> handleQuery tyerr o st = error_state msg.
Proof.
  intros Hw. unfold handleQuery. rewrite handleQuery_settle_writes, Hw.
  reflexivity.
Qed.

Lemma phase_of_error_state msg :
  truthy msg = true -> phase_of (error_state msg) = Some (Error msg).
Proof. destruct msg; simpl; try discriminate; reflexivity. Qed.

(** *** Failures *)

Lemma handleQuery_settle_failure o st msg :
  settle_writes tyerr o = inr msg ->
  handleQuery_settle tyerr o st = setLoading false (setError msg st).
Proof.
  intros Hw. rewrite handleQuery_settle_writes, Hw. reflexivity.
Qed.

(** C5 (as amended).  When a failed request settles, in whatever state,
    the loading flag is cleared, the data is left as it is, and the error
    becomes a truthy message: for a non-2xx response with a JSON object,
    the object's [error] field when that is truthy, and [API error] when
    the field is absent or falsy; for a body that does not parse,
    whatever the status, for a request that cannot complete and for a
    [null] payload, the failure's own message, or [Network error] when
    that message is empty.  So the query ends in the Error state whenever
    the page holds no data at that moment: in every reachable state that
    is still loading, and when nothing ran between the submission and the
    response.  A 404 with body [{"error": "area not found"}] ends in Error
    with that message. *)
Theorem failed_request_ends_in_error :
  (forall st o, failed o = true ->
     exists msg,
       handleQuery_settle tyerr o st = setLoading false (setError msg st) /\
       truthy msg = true) /\
  (forall st status fields,
     ok status = false -> truthy (get fields "error") = true ->
     handleQuery_settle tyerr (Responded status (Json (VObj fields))) st
       = setLoading false (setError (get fields "error") st)) /\
  (forall st status fields,
     ok status = false -> truthy (get fields "error") = false ->
     handleQuery_settle tyerr (Responded status (Json (VObj fields))) st
       = setLoading false (setError (VStr "API error") st)) /\
  (forall st status err,
     handleQuery_settle tyerr (Responded status (Unparsable err)) st
       = setLoading false (setError (failure_message err) st)) /\
  (forall st err,
     handleQuery_settle tyerr (Rejected err) st
       = setLoading false (setError (failure_message err) st)) /\
  (forall st status,
     ok status = false ->
     handleQuery_settle tyerr (Responded status (Json VNull)) st
       = setLoading false (setError (failure_message tyerr) st)) /\
  (forall err,
     failure_message err <> VStr "" /\
     (message err <> "" -> failure_message err = VStr (message err)) /\
     (message err = "" -> failure_message err = VStr "Network error")) /\
  (forall st msg, data st = VNull -> truthy msg = true ->
     setLoading false (setError msg st) = error_state msg /\
     phase_of (setLoading false (setError msg st)) = Some (Error msg)) /\
  (forall w i o, reachable tyerr w -> loading (ui w) = true ->
     failed o = true ->
     exists msg,
       ui (step tyerr w (Settle i o)) = error_state msg /\
       truthy msg = true /\
       phase_of (ui (step tyerr w (Settle i o))) = Some (Error msg)) /\
  (forall st o, failed o = true ->
     exists msg,
       handleQuery tyerr o st = error_state msg /\ truthy msg = true /\
       phase_of (handleQuery tyerr o st) = Some (Error msg)) /\
  (forall st,
     handleQuery tyerr
       (Responded 404 (Json (VObj [("error", VStr "area not found")]))) st
     = error_state (VStr "area not found")).
Proof.
  assert (Hnull : forall st msg, data st = VNull -> truthy msg = true ->
            setLoading false (setError msg st) = error_state msg /\
            phase_of (setLoading false (setError msg st)) = Some (Error msg)).
  { intros st msg Hd Ht.
    assert (H : setLoading false (setError msg st) = error_state msg).
    { unfold setLoading, setError, error_state. simpl. now rewrite Hd. }
    split; [exact H|]. rewrite H. now apply phase_of_error_state. }
  assert (Hany : forall st o, failed o = true ->
            exists msg,
              handleQuery_settle tyerr o st
                = setLoading false (setError msg st) /\
              truthy msg = true).
  { intros st o Hf. destruct (settle_writes_failed o Hf) as [msg Hw].
    exists msg. split; [now apply handleQuery_settle_failure|].
    now apply (settle_writes_truthy o). }
  split; [exact Hany|].
  split; [intros st status fields Hok Ht; apply handleQuery_settle_failure;
          unfold settle_writes, member_error, or_else; now rewrite Hok, Ht|].
  split; [intros st status fields Hok Ht; apply handleQuery_settle_failure;
          unfold settle_writes, member_error, or_else; now rewrite Hok, Ht|].
  split; [intros st status err; now apply handleQuery_settle_failure|].
  split; [intros st err; now apply handleQuery_settle_failure|].
  split; [intros st status Hok; apply handleQuery_settle_failure;
          unfold settle_writes, member_error; now rewrite Hok|].
  split.
  { intros err. split; [apply failure_message_nonempty|].
    unfold failure_message.
    destruct (String.eqb_spec (message err) ""); split; congruence. }
  split; [exact Hnull|]. split; [|split].
  - intros w i o Hw Hl Hf. destruct (loading_invariant w Hw Hl) as [Hd _].
    destruct (Hany (ui w) o Hf) as (msg & Hs & Ht).
    destruct (Hnull (ui w) msg Hd Ht) as [He Hp].
    exists msg. cbn [step ui]. rewrite Hs. now repeat split.
  - intros st o Hf. unfold handleQuery.
    destruct (Hany (handleQuery_start st) o Hf) as (msg & Hs & Ht).
    destruct (Hnull (handleQuery_start st) msg eq_refl Ht) as [He Hp].
    exists msg. rewrite Hs. now repeat split.
  - intros st. now apply handleQuery_failure.
Qed.

(** *** Home *)

(** C6.  From every state the home handler leaves no data, no error and
    the loading flag off, which is the Idle state; the home link can be
    used in every state of the page. *)
Theorem home_resets_to_idle :
  forall st : state,
    handleHomeClick st = initial /\
    data (handleHomeClick st) = VNull /\
    error (handleHomeClick st) = VNull /\
    loading (handleHomeClick st) = false /\
    phase_of (handleHomeClick st) = Some Idle /\
    (forall w, ui w = st ->
       enabled w Home = true /\ ui (step tyerr w Home) = initial).
Proof.
  intros st. repeat split.
Qed.

(** *** Stale responses *)


(** *** The state cells *)

(** C10 (as amended).  In every reachable state, loading implies that
    there is no data and no error, so a loading state is exactly the
    Loading state; every submission resets the three cells at once to the
    Loading state, whatever they held; a request settling while the page
    is loading leaves one of Idle, Success and Error; and a reachable state
    is one of the four unless, not loading, it holds both a response and
    an error. *)
Theorem loading_excludes_data_and_error :
  (forall w, reachable tyerr w -> loading (ui w) = true ->
     data (ui w) = VNull /\ error (ui w) = VNull /\
     phase_of (ui w) = Some Loading) /\
  (forall w area,
     ui (step tyerr w (Submit area))
       = {| data := VNull; loading := true; error := VNull |}) /\
  (forall w i o, reachable tyerr w -> loading (ui w) = true ->
     exists s, phase_of (ui (step tyerr w (Settle i o))) = Some s /\
               s <> Loading) /\
  (forall w, reachable tyerr w ->
     (exists s, phase_of (ui w) = Some s) \/
     (loading (ui w) = false /\ nullish (data (ui w)) = false /\
      nullish (error (ui w)) = false)).
Proof.
  split; [|split; [|split]].
  - intros w Hw Hl. destruct (loading_invariant w Hw Hl) as [Hd He].
    repeat split; [exact Hd | exact He |].
    unfold phase_of. now rewrite Hl, Hd, He.
  - reflexivity.
  - intros w i o Hw Hl. destruct (loading_invariant w Hw Hl) as [Hd He].
    cbn [step ui]. rewrite handleQuery_settle_writes, Hd, He.
    destruct (settle_writes tyerr o) as [json|msg] eqn:Ho.
    + unfold phase_of. simpl.
      destruct (nullish json); eexists; split; try reflexivity; discriminate.
    + apply settle_writes_truthy in Ho.
      exists (Error msg). split; [|discriminate].
      now apply (phase_of_error_state msg).
  - intros w Hw. pose proof (loading_invariant w Hw) as Hinv.
    unfold phase_of. destruct (loading (ui w)).
    + destruct (Hinv eq_refl) as [-> ->]. left. now eexists.
    + destruct (nullish (data (ui w))), (nullish (error (ui w)));
        try (left; now eexists). now right.
Qed.

End EngineFacts.

(** *** Concrete runs *)

(** The amended C5 at a 404 that arrives while the page is loading. *)
Lemma failed_request_ends_in_error_witness :
  exists msg,
    ui (step v8_null_member_error
          (step v8_null_member_error start (Submit "Wakad"))
          (Settle 0
             (Responded 404 (Json (VObj [("error", VStr "area not found")])))))
      = error_state msg /\
    truthy msg = true /\
    phase_of
      (ui (step v8_null_member_error
             (step v8_null_member_error start (Submit "Wakad"))
             (Settle 0
                (Responded 404
                   (Json (VObj [("error", VStr "area not found")]))))))
      = Some (Error msg).
Proof.
  apply (proj1 (proj2 (proj2 (proj2 (proj2 (proj2 (proj2 (proj2 (proj2
           (failed_request_ends_in_error v8_null_member_error)))))))))).
  - apply reachable_step; [apply reachable_start | reflexivity].
  - reflexivity.
  - reflexivity.
Defined.

(** C5 as stated fails for a non-2xx response whose body does not parse:
    the message is the parser's, neither of the generic ones.  An [error]
    field that is present but empty is replaced by [API error].  And a
    404 that settles after another query's response was applied leaves
    that response on the page beside the message, which is not the Error
    state. *)
Lemma unparsable_body_reports_parse_failure :
  ok 500 = false /\
  handleQuery v8_null_member_error
    (Responded 500
       (Unparsable {| message := "Unexpected token < in JSON at position 0" |}))
    initial
    = error_state (VStr "Unexpected token < in JSON at position 0") /\
  VStr "Unexpected token < in JSON at position 0" <> VStr "API error" /\
  VStr "Unexpected token < in JSON at position 0" <> VStr "Network error" /\
  handleQuery v8_null_member_error
    (Responded 500 (Json (VObj [("error", VStr "")]))) initial
    = error_state (VStr "API error") /\
  exists w,
    run v8_null_member_error start
      [Submit "Akurdi"; Home; Submit "Wakad";
       Settle 1 (Responded 200 (Json wakad_response));
       Settle 0 (Responded 404 (Json (VObj [("error", VStr "area not found")])))]
      = Some w /\
    ui w = {| data := wakad_response; loading := false;
              error := VStr "area not found" |} /\
    phase_of (ui w) = None.
Proof.
  repeat split; try discriminate.
  eexists. repeat split.
Qed.

(** C6 at a page showing a result. *)
Lemma home_resets_to_idle_witness :
  enabled {| ui := setData wakad_response initial; in_flight := [] |} Home
    = true /\
  ui (step v8_null_member_error
        {| ui := setData wakad_response initial; in_flight := [] |} Home)
    = initial.
Proof.
  apply (proj2 (proj2 (proj2 (proj2 (proj2
           (home_resets_to_idle v8_null_member_error
              (setData wakad_response initial))))))).
  reflexivity.
Defined.



(** The amended C10 at the state right after a submission. *)
Lemma loading_excludes_data_and_error_witness :
  data (ui (step v8_null_member_error start (Submit "Wakad"))) = VNull /\
  error (ui (step v8_null_member_error start (Submit "Wakad"))) = VNull /\
  phase_of (ui (step v8_null_member_error start (Submit "Wakad")))
    = Some Loading.
Proof.
  apply (proj1 (loading_excludes_data_and_error v8_null_member_error)).
  - apply reachable_step; [apply reachable_start | reflexivity].
  - reflexivity.
Defined.

(** C10 as stated fails: a reachable state holds a response and an error
    at once, so it is none of Idle, Loading, Success and Error; the page
    shows the error banner and the result panels together. *)
Lemma stale_success_then_failure :
  exists w,
    reachable v8_null_member_error w /\
    ui w = {| data := wakad_response; loading := false;
              error := VStr "Failed to fetch" |} /\
    phase_of (ui w) = None /\
    shows_alert (ui w) = true /\ shows_results (ui w) = true.
Proof.
  eexists. split; [|split; [|split; [|split]]].
  - apply (run_reachable v8_null_member_error
             [Submit "Wakad"; Home; Submit "Akurdi";
              Settle 0 (Responded 200 (Json wakad_response));
              Settle 0 (Rejected failed_to_fetch)] start);
      [apply reachable_start | reflexivity].
  - reflexivity.
  - reflexivity.
  - reflexivity.
  - reflexivity.
Qed.

(** *** Completed queries, panels, bookkeeping *)

Section MoreEngineFacts.
Variable tyerr : js_error.

(** X12.  A query run with no other handler between its submission and
    its response, answered 2xx with a JSON body, ends from any state with
    that body as the data, no error and not loading.  The guard of the
    result panels then holds exactly when the body is truthy; for a falsy
    body ([null], [0], [false], the empty string) the guard of the
    example queries holds instead; the guards of the error banner and of
    the spinner do not hold. *)
Theorem successful_query :
  forall (st : state) (status : Z) (json : value),
    ok status = true ->
    let st' := handleQuery tyerr (Responded status (Json json)) st in
    st' = {| data := json; loading := false; error := VNull |} /\
    shows_results st' = truthy json /\
    shows_examples st' = negb (truthy json) /\
    shows_alert st' = false /\ shows_spinner st' = false.
Proof.
  intros st status json Hok. cbv zeta.
  assert (H : handleQuery tyerr (Responded status (Json json)) st
              = {| data := json; loading := false; error := VNull |}).
  { unfold handleQuery. rewrite handleQuery_settle_writes.
    unfold settle_writes. now rewrite Hok. }
  rewrite H. unfold shows_results, shows_examples, shows_alert, shows_spinner.
  simpl. repeat split; now destruct (truthy json).
Qed.

(** X13.  A query run to completion depends on how its request settles and
    on nothing the page held before; it never leaves the page loading, and
    it leaves one of Idle, Success and Error. *)
Theorem completed_query_forgets_the_past :
  forall (o : outcome) (st st' : state),
    handleQuery tyerr o st = handleQuery tyerr o st' /\
    loading (handleQuery tyerr o st) = false /\
    exists s, phase_of (handleQuery tyerr o st) = Some s /\ s <> Loading.
Proof.
  intros o st st'. unfold handleQuery.
  change (handleQuery_start st) with (handleQuery_start st').
  split; [reflexivity|]. rewrite handleQuery_settle_writes.
  destruct (settle_writes tyerr o) as [json|msg] eqn:Ho.
  - split; [reflexivity|]. unfold phase_of. simpl.
    destruct (nullish json); eexists; split; try reflexivity; discriminate.
  - split; [reflexivity|].
    apply settle_writes_truthy in Ho.
    exists (Error msg). split; [|discriminate].
    now apply (phase_of_error_state msg).
Qed.

(** X14.  In every reachable state in which the spinner's guard holds
    (the page is loading), the guards of the error banner, of the result
    panels and of the example queries do not hold: while a query is
    loading the page body is the spinner alone. *)
Theorem panels_shown :
  forall w, reachable tyerr w -> shows_spinner (ui w) = true ->
    shows_alert (ui w) = false /\ shows_results (ui w) = false /\
    shows_examples (ui w) = false.
Proof.
  unfold shows_examples, shows_spinner, shows_alert, shows_results.
  intros w Hw Hl. destruct (loading_invariant tyerr w Hw Hl) as [-> ->].
  rewrite Hl. repeat split.
Qed.

End MoreEngineFacts.

Lemma successful_query_witness :
  handleQuery v8_null_member_error (Responded 200 (Json wakad_response))
    (error_state (VStr "Failed to fetch"))
    = {| data := wakad_response; loading := false; error := VNull |} /\
  shows_results
    (handleQuery v8_null_member_error (Responded 200 (Json wakad_response))
       (error_state (VStr "Failed to fetch")))
    = truthy wakad_response /\
  shows_examples
    (handleQuery v8_null_member_error (Responded 200 (Json wakad_response))
       (error_state (VStr "Failed to fetch")))
    = negb (truthy wakad_response) /\
  shows_alert
    (handleQuery v8_null_member_error (Responded 200 (Json wakad_response))
       (error_state (VStr "Failed to fetch")))
    = false /\
  shows_spinner
    (handleQuery v8_null_member_error (Responded 200 (Json wakad_response))
       (error_state (VStr "Failed to fetch")))
    = false.
Proof.
  apply (successful_query v8_null_member_error
           (error_state (VStr "Failed to fetch")) 200 wakad_response).
  reflexivity.
Defined.

Lemma panels_shown_witness :
  shows_alert (ui (step v8_null_member_error start (Submit "Wakad"))) = false /\
  shows_results (ui (step v8_null_member_error start (Submit "Wakad"))) = false /\
  shows_examples (ui (step v8_null_member_error start (Submit "Wakad"))) = false.
Proof.
  apply (panels_shown v8_null_member_error).
  - apply reachable_step; [apply reachable_start | reflexivity].
  - reflexivity.
Defined.

End AppFacts.
